(** * matminer: composition descriptors, [flatten_dict], [has_oxidation_states]

    A shallow embedding of

    - [matminer/utils/flatten_dict.py]
    - [matminer/featurizers/utils/oxidation.py]
    - [matminer/descriptors/composition_features.py]

    Python exceptions are values of [exn] carried by the [result] monad.
    Numbers follow the code: amounts and tabulated values are rationals
    ([Q]), which every finite float is, so that lookups, replication,
    counting, sums, products and quotients run; powers, exponentials and
    square roots are taken in [R].  Rounding of floating-point arithmetic is
    not modelled: a theorem about a computed value states the formula that
    the code evaluates, which the running code meets up to rounding.

    The periodic table, the formula parser, the data directory, the
    iteration order of Python's [set] and numpy's mean and standard
    deviation are not part of the package: they are the fields of [Env],
    an explicit environment passed to every function that uses them.
    [get_cohesive_energy] and [band_center] are modelled in [Energies],
    where the remote service and the file of cohesive energies are the
    further fields of [EnergyEnv]. *)

From Stdlib Require Import List String Ascii Bool ZArith QArith Qabs Qround Reals Qreals Lra Lia.
From Stdlib Require Import DecimalString DecimalPos DecimalZ.
From Stdlib Require Lqa.
Import ListNotations.

Set Implicit Arguments.
Set Warnings "-register-all".

(** ** Exceptions and the error monad *)

Inductive exn : Set :=
| ValueError
| AttributeError
| TypeError
| IndexError
| IOError
| ZeroDivisionError.

Inductive result (A : Type) : Type :=
| Ok (a : A)
| Raise (e : exn).

Arguments Ok {A} a.
Arguments Raise {A} e.

Definition bind {A B : Type} (m : result A) (k : A -> result B) : result B :=
  match m with
  | Ok a => k a
  | Raise e => Raise e
  end.

Declare Scope py_scope.
Delimit Scope py_scope with py.
Notation "x <- m ;; k" := (bind m (fun x => k))
  (at level 61, m at next level, right associativity) : py_scope.
Notation "' p <- m ;; k" := (bind m (fun p => k))
  (at level 61, p pattern, m at next level, right associativity) : py_scope.

(** A [for] loop whose body may raise: the state is threaded from left to
    right and the first exception ends the loop. *)
Fixpoint for_each {A S : Type} (body : S -> A -> result S) (xs : list A) (s : S)
  : result S :=
  match xs with
  | [] => Ok s
  | x :: rest => bind (body s x) (for_each body rest)
  end.

(** ** [matminer/utils/flatten_dict.py] *)

Module FlattenDict.

Local Open Scope string_scope.

(** Dictionary keys: strings, and the integers that [enumerate] makes. *)
Inductive key : Set :=
| KStr (s : string)
| KInt (n : Z).

Definition key_eqb (a b : key) : bool :=
  match a, b with
  | KStr s, KStr t => String.eqb s t
  | KInt n, KInt m => Z.eqb n m
  | _, _ => false
  end.

(** Python values as far as [flatten_dict] tells them apart. *)
Inductive pyval : Set :=
| PNone
| PBool (b : bool)
| PInt (n : Z)
| PFloat (q : Q)
| PStr (s : string)
| PDict (items : list (key * pyval))
| PList (xs : list pyval)
| PTuple (xs : list pyval).

(** A [dict]: its items in insertion order. *)
Definition dict : Set := list (key * pyval).

(** [d[k] = v]: an existing key keeps its place, a new one goes last. *)
Fixpoint dict_set (d : dict) (k : key) (v : pyval) : dict :=
  match d with
  | [] => [(k, v)]
  | (k', v') :: rest =>
      if key_eqb k' k then (k', v) :: rest else (k', v') :: dict_set rest k v
  end.

(** [d.update(other)] and [d |= other]. *)
Definition dict_update (d other : dict) : dict :=
  fold_left (fun acc kv => dict_set acc (fst kv) (snd kv)) other d.

(** [dict(enumerate(value))]. *)
Fixpoint enumerate_from (i : Z) (xs : list pyval) : dict :=
  match xs with
  | [] => []
  | x :: rest => (KInt i, x) :: enumerate_from (i + 1) rest
  end.

Definition enumerate (xs : list pyval) : dict := enumerate_from 0 xs.

(** [str(key)] inside the f-string. *)
Definition key_str (k : key) : string :=
  match k with
  | KStr s => s
  | KInt n => NilZero.string_of_int (Z.to_int n)
  end.

(** Truth value of [lead_key]: [None], [""] and [0] are false. *)
Definition truthy (lead_key : option key) : bool :=
  match lead_key with
  | None => false
  | Some (KStr s) => negb (String.eqb s "")
  | Some (KInt n) => negb (Z.eqb n 0)
  end.

(** [f"{lead_key}.{key}" if lead_key else key]. *)
Definition make_flat_key (lead_key : option key) (k : key) : key :=
  match lead_key with
  | Some lead =>
      if truthy lead_key then KStr (key_str lead ++ "." ++ key_str k) else k
  | None => k
  end.

(** The recursion of [flatten_dict] follows the nesting of its argument,
    and on a list it recurses on a dictionary built on the spot, so the
    model counts the remaining depth in [fuel]; [None] means the fuel ran
    out.  [flatten_dict_total] shows that [dict_depth d] is enough. *)
Fixpoint flatten_dict (fuel : nat) (nested_dict : dict) (lead_key : option key)
         (unwind_arrays : bool) {struct fuel} : option dict :=
  match fuel with
  | O => None
  | S fuel' =>
      fold_left
        (fun acc kv =>
           match acc with
           | None => None
           | Some flattened =>
               let flat_key := make_flat_key lead_key (fst kv) in
               match snd kv with
               | PDict d =>
                   option_map (dict_update flattened)
                     (flatten_dict fuel' d (Some flat_key) unwind_arrays)
               | PList xs | PTuple xs =>
                   if unwind_arrays then
                     option_map (dict_update flattened)
                       (flatten_dict fuel' (enumerate xs) (Some flat_key)
                          unwind_arrays)
                   else Some (dict_set flattened flat_key (snd kv))
               | value => Some (dict_set flattened flat_key value)
               end
           end)
        nested_dict (Some [])
  end.

Definition is_dict (v : pyval) : bool :=
  match v with PDict _ => true | _ => false end.

Definition is_array (v : pyval) : bool :=
  match v with PList _ | PTuple _ => true | _ => false end.

(** Nesting depth of a value; a scalar has depth 0. *)
Fixpoint depth (v : pyval) : nat :=
  match v with
  | PDict items =>
      S ((fix go (l : list (key * pyval)) : nat :=
            match l with
            | [] => O
            | kv :: rest => Nat.max (depth (snd kv)) (go rest)
            end) items)
  | PList xs | PTuple xs =>
      S ((fix go (l : list pyval) : nat :=
            match l with
            | [] => O
            | x :: rest => Nat.max (depth x) (go rest)
            end) xs)
  | _ => O
  end.

Definition dict_depth (d : dict) : nat := depth (PDict d).

(** *** Notions used in the statements *)

(** Every value is a scalar: neither a dictionary nor a list or tuple. *)
Definition flat_values (d : dict) : Prop :=
  Forall (fun kv => is_dict (snd kv) = false /\ is_array (snd kv) = false) d.

Definition no_dict_values (d : dict) : Prop :=
  Forall (fun kv => is_dict (snd kv) = false) d.

(** One turn of the loop of [flatten_dict], as the model folds it. *)
Definition flatten_step (fuel' : nat) (lead_key : option key) (unwind_arrays : bool)
           (acc : option dict) (kv : key * pyval) : option dict :=
  match acc with
  | None => None
  | Some flattened =>
      let flat_key := make_flat_key lead_key (fst kv) in
      match snd kv with
      | PDict d =>
          option_map (dict_update flattened)
            (flatten_dict fuel' d (Some flat_key) unwind_arrays)
      | PList xs | PTuple xs =>
          if unwind_arrays then
            option_map (dict_update flattened)
              (flatten_dict fuel' (enumerate xs) (Some flat_key) unwind_arrays)
          else Some (dict_set flattened flat_key (snd kv))
      | value => Some (dict_set flattened flat_key value)
      end
  end.

(** The depth of the items of a dictionary and of a list. *)
Definition items_depth (l : dict) : nat :=
  fold_right (fun kv n => Nat.max (depth (snd kv)) n) O l.

Definition list_depth (l : list pyval) : nat :=
  fold_right (fun x n => Nat.max (depth x) n) O l.

End FlattenDict.

(** ** [matminer/featurizers/utils/oxidation.py] *)

Module Oxidation.

(** The [oxi_state] slot of an element object: the attribute is missing
    (a plain element), or present and [None], or present with a value. *)
Inductive slot : Set :=
| NoAttr
| AttrNone
| AttrVal (q : Q).

Record species : Set := { symbol : string; oxi_state_slot : slot }.

(** A composition object: its element objects with their amounts. *)
Record Composition : Set := { elements : list species; amounts : list Q }.

(** Computations that read and may write the composition object and may
    raise. *)
Definition Py (A : Type) : Type := Composition -> result (A * Composition).

Definition ret {A : Type} (a : A) : Py A := fun c => Ok (a, c).

Definition pbind {A B : Type} (m : Py A) (k : A -> Py B) : Py B :=
  fun c =>
    match m c with
    | Ok (a, c') => k a c'
    | Raise e => Raise e
    end.

(** [comp.elements]. *)
Definition get_elements : Py (list species) := fun c => Ok (elements c, c).

(** [hasattr(el, "oxi_state")]. *)
Definition hasattr_oxi_state (el : species) : Py bool :=
  ret (match oxi_state_slot el with NoAttr => false | _ => true end).

(** [el.oxi_state]: [AttributeError] when the attribute is missing. *)
Definition get_oxi_state (el : species) : Py (option Q) :=
  fun c =>
    match oxi_state_slot el with
    | NoAttr => Raise AttributeError
    | AttrNone => Ok (None, c)
    | AttrVal q => Ok (Some q, c)
    end.

(** [not hasattr(el, "oxi_state") or el.oxi_state is None]; [or] does not
    evaluate its right operand when the left one is true. *)
Definition lacks_oxi_state (el : species) : Py bool :=
  pbind (hasattr_oxi_state el) (fun h =>
    if negb h then ret true
    else pbind (get_oxi_state el) (fun o =>
           ret (match o with None => true | Some _ => false end))).

(** [any(f(el) for el in els)]: stops at the first true item. *)
Fixpoint py_any (f : species -> Py bool) (els : list species) : Py bool :=
  match els with
  | [] => ret false
  | el :: rest => pbind (f el) (fun b => if b then ret true else py_any f rest)
  end.

Definition has_oxidation_states : Py bool :=
  pbind get_elements (fun els =>
    pbind (py_any lacks_oxi_state els) (fun b => ret (negb b))).

Definition has_value (el : species) : Prop :=
  exists q, oxi_state_slot el = AttrVal q.

(** The test of the generator expression as a plain boolean. *)
Definition lacks_value (el : species) : bool :=
  match oxi_state_slot el with
  | AttrVal _ => false
  | _ => true
  end.

End Oxidation.

(** ** [matminer/descriptors/composition_features.py] *)

Module CompositionFeatures.

Local Open Scope string_scope.
Local Open Scope list_scope.

(** *** String operations of the Python source *)

(** [sub in s]. *)
Fixpoint str_in (sub s : string) : bool :=
  String.prefix sub s
  || match s with
     | EmptyString => false
     | String _ rest => str_in sub rest
     end.

Fixpoint str_drop (n : nat) (s : string) : string :=
  match n, s with
  | S n', String _ rest => str_drop n' rest
  | _, _ => s
  end.

Fixpoint str_replace_aux (fuel : nat) (old new s : string) : string :=
  match fuel, s with
  | S fuel', String c rest =>
      if String.prefix old s
      then (new ++ str_replace_aux fuel' old new (str_drop (String.length old) s))%string
      else String c (str_replace_aux fuel' old new rest)
  | _, _ => s
  end.

(** [s.replace(old, new)] for a non-empty [old]: every occurrence, scanning
    from the left without overlap. *)
Definition str_replace (old new s : string) : string :=
  match old with
  | EmptyString => s
  | _ => str_replace_aux (String.length s) old new s
  end.

(** [s.split(sep)] for a one-character separator. *)
Fixpoint str_split (sep : ascii) (s : string) : list string :=
  match s with
  | EmptyString => [EmptyString]
  | String c rest =>
      if Ascii.eqb c sep then EmptyString :: str_split sep rest
      else match str_split sep rest with
           | [] => [String c EmptyString]
           | w :: ws => String c w :: ws
           end
  end.

Fixpoint str_lstrip (ch : ascii) (s : string) : string :=
  match s with
  | String c rest => if Ascii.eqb c ch then str_lstrip ch rest else s
  | EmptyString => s
  end.

Fixpoint str_rstrip (ch : ascii) (s : string) : string :=
  match s with
  | EmptyString => EmptyString
  | String c rest =>
      match str_rstrip ch rest with
      | EmptyString => if Ascii.eqb c ch then EmptyString else String c EmptyString
      | rest' => String c rest'
      end
  end.

(** [s.strip(ch)] for a one-character [ch]. *)
Definition str_strip (ch : ascii) (s : string) : string :=
  str_rstrip ch (str_lstrip ch s).

Definition newline : ascii := Ascii.ascii_of_nat 10.

(** [x in xs] for a list of strings. *)
Definition str_mem (x : string) (xs : list string) : bool :=
  existsb (String.eqb x) xs.

(** *** Lists and numbers *)

(** [l[i]]: a negative index counts from the end. *)
Definition py_index {A : Type} (l : list A) (i : Z) : result A :=
  let j := if (i <? 0)%Z then (i + Z.of_nat (List.length l))%Z else i in
  if (j <? 0)%Z then Raise IndexError
  else match nth_error l (Z.to_nat j) with
       | Some x => Ok x
       | None => Raise IndexError
       end.

(** [int(x)] on a float: truncation towards zero. *)
Definition py_int (x : Q) : Z := Z.quot (Qnum x) (Zpos (Qden x)).

(** [range(n)] as a repetition count: empty when [n <= 0]. *)
Definition range_len (n : Z) : nat := Z.to_nat n.

(** [sum(xs)]. *)
Definition qsum (xs : list Q) : Q := fold_left Qplus xs 0%Q.

(** Float division [a / b]. *)
Definition py_div (a b : Q) : result Q :=
  if Qeq_bool b 0 then Raise ZeroDivisionError else Ok (a / b)%Q.

(** The same on the reals. *)
Definition py_fdiv (a b : R) : result R :=
  if Req_dec_T b 0 then Raise ZeroDivisionError else Ok (a / b)%R.

Definition is_integer (y : R) : bool :=
  if Req_dec_T y (IZR (Int_part y)) then true else false.

(** [x ** y] on floats (Python 2): [x ** 0] is 1; a zero base raises on a
    negative power; a negative base raises on a fractional power. *)
Definition py_pow (x y : R) : result R :=
  if Req_dec_T y 0 then Ok 1%R
  else if Rlt_dec 0 x then Ok (Rpower x y)
  else if Req_dec_T x 0 then
         if Rlt_dec 0 y then Ok 0%R else Raise ZeroDivisionError
  else if is_integer y then
         Ok (if Z.even (Int_part y) then Rpower (- x) y else (- Rpower (- x) y)%R)
  else Raise ValueError.

(** [reduce(f, l)] without an initial value. *)
Definition py_reduce {A : Type} (f : A -> A -> A) (l : list A) : result A :=
  match l with
  | [] => Raise TypeError
  | x :: rest => Ok (fold_left f rest x)
  end.

(** *** The environment *)

(** What [getattr(Element(el), prop)] can give. *)
Inductive attr_value : Type :=
| AttrNoneV                              (* None: no data for this element *)
| AttrQuantity (v : Q) (unit : string)   (* a float with a unit *)
| AttrNumber (v : Q)                     (* a plain number, without [.unit] *)
| AttrOther (is_callable : bool).        (* a dict, tuple, string or method *)

(** An element-to-amount mapping in iteration order. *)
Definition el_amt_dict : Type := list (string * Q).

Record Env : Type := {
  (** [Composition(comp).get_el_amt_dict()] *)
  get_el_amt_dict : string -> result el_amt_dict;
  (** [getattr(Element(el), prop)]: [AttributeError] for an unknown name *)
  element_getattr : string -> string -> result attr_value;
  (** [Element(el).Z] *)
  element_Z : string -> Z;
  (** [os.listdir(data_dir)] *)
  listdir : list string;
  (** [open(os.path.join(data_dir, name)).readlines()] *)
  readlines : string -> result (list string);
  (** [float(s)] on a line of a table *)
  parse_float : string -> result Q;
  (** the order in which [set(l)] is iterated *)
  set_iter : list Q -> list Q;
  (** [np.mean(l)], the float that numpy returns *)
  np_mean : list Q -> Q;
  (** [np.std(l)], the float that numpy returns *)
  np_std : list Q -> R
}.

Definition values (d : el_amt_dict) : list Q := map snd d.

(** [sum(el_amt.values())], the total atom count. *)
Definition n_atoms (d : el_amt_dict) : Q := qsum (values d).

(** [comp_obj.get_atomic_fraction(el)] for an element of the composition
    with amount [amt]: the amount over the total atom count. *)
Definition get_atomic_fraction (d : el_amt_dict) (amt : Q) : result Q :=
  py_div amt (n_atoms d).

Section WithEnv.

Variable env : Env.

Local Open Scope py_scope.

(** *** [get_pymatgen_descriptor] *)

Record eldata_tup : Type := {
  element : string;
  propname : string;
  propvalue : option Q;
  propunit : option string;
  amt : Q
}.

Definition unitless_props : list string :=
  ["X"; "Z"; "ionic_radii"; "group"; "row"; "number"; "mendeleev_no"].

(** [callable(x)]. *)
Definition py_callable (v : attr_value) : bool :=
  match v with AttrOther c => c | _ => false end.

(** [b is None] for a [bool] [b]: never true. *)
Definition bool_is_None (b : bool) : bool := false.

(** [float(x)] on an attribute value. *)
Definition attr_float (v : attr_value) : result Q :=
  match v with
  | AttrQuantity q _ | AttrNumber q => Ok q
  | _ => Raise TypeError
  end.

(** [x.unit]. *)
Definition attr_unit (v : attr_value) : result string :=
  match v with
  | AttrQuantity _ u => Ok u
  | _ => Raise AttributeError
  end.

(** The body of the loop over the elements; the state is [eldata] with
    [eldata_tup_lst]. *)
Definition pymatgen_body (prop : string) (st : list Q * list eldata_tup)
           (item : string * Q) : result (list Q * list eldata_tup) :=
  let '(eldata, eldata_tup_lst) := st in
  let '(el, amount) := item in
  v <- element_getattr env el prop ;;
  if bool_is_None (py_callable v) then Raise ValueError
  else
    match v with
    | AttrNoneV =>
        Ok (eldata,
            eldata_tup_lst ++
              [{| element := el; propname := prop; propvalue := None;
                  propunit := None; amt := amount |}])
    | _ =>
        units <- (if str_mem prop unitless_props then Ok None
                  else u <- attr_unit v ;; Ok (Some u)) ;;
        x <- attr_float v ;;
        Ok (eldata ++ repeat x (range_len (py_int amount)),
            eldata_tup_lst ++
              [{| element := el; propname := prop; propvalue := Some x;
                  propunit := units; amt := amount |}])
    end.

(** The function with its local record list, which the source builds and
    drops. *)
Definition pymatgen_run (comp prop : string)
  : result (list Q * list eldata_tup) :=
  el_amt <- get_el_amt_dict env comp ;;
  for_each (pymatgen_body prop) el_amt ([], []).

Definition get_pymatgen_descriptor (comp prop : string) : result (list Q) :=
  st <- pymatgen_run comp prop ;; Ok (fst st).

(** *** [get_magpie_descriptor] *)

Record magpiedata_tup : Type := {
  m_element : string;
  m_propname : string;
  m_propvalue : Q;
  m_propunit : option string;
  m_amt : Q
}.

(** The names of the files of the data directory, [".table"] removed. *)
Definition available_props : list string :=
  map (str_replace ".table" "") (listdir env).

(** [enumerate(l, 1)]. *)
Definition enumerate1 {A : Type} (l : list A) : list (nat * A) :=
  combine (seq 1 (List.length l)) l.

(** The body of the scan of the README for the unit; [lineno] counts from
    1, so [readme_file_line[lineno + 1]] is two lines below the match. *)
Definition readme_body (descriptor_name : string) (readme_file_line : list string)
           (unit : option string) (item : nat * string) : result (option string) :=
  let '(lineno, line) := item in
  if str_in (descriptor_name ++ ".table")%string line then
    next <- py_index readme_file_line (Z.of_nat (lineno + 1)) ;;
    if str_in "Units: " next then
      field <- py_index (str_split ":" next) 1 ;;
      Ok (Some (str_strip newline field))
    else Ok unit
  else Ok unit.

(** The body of the loop over the elements; the state is [magpiedata] with
    [magpiedata_tup_lst]. *)
Definition magpie_body (descriptor_name : string) (unit : option string)
           (lines : list string) (st : list Q * list magpiedata_tup)
           (item : string * Q) : result (list Q * list magpiedata_tup) :=
  let '(magpiedata, magpiedata_tup_lst) := st in
  let '(el, amount) := item in
  let atomic_no := element_Z env el in
  line <- py_index lines (atomic_no - 1) ;;
  x <- parse_float env line ;;
  Ok (magpiedata ++ repeat x (range_len (py_int amount)),
      magpiedata_tup_lst ++
        [{| m_element := el; m_propname := descriptor_name; m_propvalue := x;
            m_propunit := unit; m_amt := amount |}]).

Definition magpie_run (comp descriptor_name : string)
  : result (list Q * list magpiedata_tup) :=
  if negb (str_mem descriptor_name available_props) then Raise ValueError
  else
    el_amt <- get_el_amt_dict env comp ;;
    readme_file_line <- readlines env "README.txt" ;;
    unit <- for_each (readme_body descriptor_name readme_file_line)
              (enumerate1 readme_file_line) None ;;
    lines <- readlines env (descriptor_name ++ ".table")%string ;;
    for_each (magpie_body descriptor_name unit lines) el_amt ([], []).

Definition get_magpie_descriptor (comp descriptor_name : string)
  : result (list Q) :=
  st <- magpie_run comp descriptor_name ;; Ok (fst st).

(** *** [get_stoich_attributes] *)

Definition stoich_body (n : Q) (p : R) (p_norm : R) (item : string * Q)
  : result R :=
  f <- py_div (snd item) n ;;
  t <- py_pow (Q2R f) p ;;
  Ok (p_norm + t)%R.

Definition get_stoich_attributes (comp : string) (p : R) : result R :=
  el_amt <- get_el_amt_dict env comp ;;
  let n := n_atoms el_amt in
  if Req_dec_T p 0 then Ok (Q2R n)
  else
    p_norm <- for_each (stoich_body n p) el_amt 0%R ;;
    e <- py_fdiv 1 p ;;
    py_pow p_norm e.

(** *** [get_elem_property_attributes] *)

Definition magpie_desc : list string :=
  ["Number"; "MendeleevNumber"; "AtomicWeight"; "MeltingT"; "Column"; "Row";
   "CovalentRadius"; "Electronegativity";
   "NsValence"; "NpValence"; "NdValence"; "NfValence"; "NValance";
   "NsUnfilled"; "NpUnfilled"; "NdUnfilled"; "NfUnfilled"; "NUnfilled";
   "GSvolume_pa"; "GSbandgap"; "GSmagmom"; "SpaceGroupNumber"].

Definition Qlt_bool (a b : Q) : bool := negb (Qle_bool b a).

(** The scan of [max] and [min]: the running best is replaced only by an
    item that is strictly better, so the first of several best items wins. *)
Fixpoint best_from {A : Type} (better : A -> A -> bool) (best : A) (l : list A) : A :=
  match l with
  | [] => best
  | x :: rest => best_from better (if better x best then x else best) rest
  end.

Definition py_best {A : Type} (better : A -> A -> bool) (l : list A) : result A :=
  match l with
  | [] => Raise ValueError
  | x :: rest => Ok (best_from better x rest)
  end.

(** [min(l)], [max(l)] and [max(l, key=key)]. *)
Definition py_min (l : list Q) : result Q := py_best Qlt_bool l.
Definition py_max (l : list Q) : result Q := py_best (fun x b => Qlt_bool b x) l.
Definition py_max_key {A : Type} (key : A -> nat) (l : list A) : result A :=
  py_best (fun x b => Nat.ltb (key b) (key x)) l.

(** [data_lst.count(x)]. *)
Definition count (data_lst : list Q) (x : Q) : nat :=
  List.length (filter (Qeq_bool x) data_lst).

(** [max(set(data_lst), key=data_lst.count)]. *)
Definition mode (data_lst : list Q) : result Q :=
  py_max_key (count data_lst) (set_iter env data_lst).

(** One row [min, max, range, mean, std, mode]. *)
Record desc_stats : Type := {
  s_min : Q; s_max : Q; s_range : Q; s_mean : Q; s_std : R; s_mode : Q
}.

Definition summary_stats (data_lst : list Q) : result desc_stats :=
  lo <- py_min data_lst ;;
  hi <- py_max data_lst ;;
  m <- mode data_lst ;;
  Ok {| s_min := lo; s_max := hi; s_range := (hi - lo)%Q;
        s_mean := np_mean env data_lst; s_std := np_std env data_lst;
        s_mode := m |}.

Definition elem_property_body (comp : string) (all_attributes : list desc_stats)
           (desc : string) : result (list desc_stats) :=
  data_lst <- get_magpie_descriptor comp desc ;;
  row <- summary_stats data_lst ;;
  Ok (all_attributes ++ [row]).

Definition get_elem_property_attributes (comp : string) : result (list desc_stats) :=
  for_each (elem_property_body comp) magpie_desc [].

(** *** [get_frac_weighted_mean] *)

(** What the function can hand back: a number or a mapping. *)
Inductive pyobj : Type :=
| PyFloat (x : Q)
| PyMapping (d : el_amt_dict).

Definition get_frac_weighted_mean (comp : string) (data_lst : el_amt_dict)
  : result pyobj :=
  el_amt <- get_el_amt_dict env comp ;;
  Ok (PyMapping el_amt).

(** *** [get_valence_orbital_attributes] *)

(** [get_magpie_descriptor(f, name)[0]]. *)
Definition first_value (f name : string) : result Q :=
  l <- get_magpie_descriptor f name ;; py_index l 0.

Definition valence_state : Type := (Q * Q * Q * Q * Q)%type.

Definition valence_body (el_amt : el_amt_dict) (st : valence_state)
           (item : string * Q) : result valence_state :=
  let '(avg_total_valence, avg_s, avg_p, avg_d, avg_f) := st in
  let '(f, amount) := item in
  el_frac <- get_atomic_fraction el_amt amount ;;
  vt <- first_value f "NValance" ;;
  vs <- first_value f "NsValence" ;;
  vp <- first_value f "NpValence" ;;
  vd <- first_value f "NdValence" ;;
  vf <- first_value f "NfValence" ;;
  Ok (avg_total_valence + el_frac * vt, avg_s + el_frac * vs,
      avg_p + el_frac * vp, avg_d + el_frac * vd, avg_f + el_frac * vf)%Q.

(** The five fraction-weighted sums after the loop. *)
Definition valence_sums (el_amt : el_amt_dict) : result valence_state :=
  for_each (valence_body el_amt) el_amt (0, 0, 0, 0, 0)%Q.

Definition get_valence_orbital_attributes (comp : string)
  : result (Q * Q * Q * Q) :=
  el_amt <- get_el_amt_dict env comp ;;
  st <- valence_sums el_amt ;;
  let '(avg_total_valence, avg_s, avg_p, avg_d, avg_f) := st in
  Fs <- py_div avg_s avg_total_valence ;;
  Fp <- py_div avg_p avg_total_valence ;;
  Fd <- py_div avg_d avg_total_valence ;;
  Ff <- py_div avg_f avg_total_valence ;;
  Ok (Fs, Fp, Fd, Ff).

(** *** [get_ionic_attributes] *)

(** [itertools.combinations(l, 2)]. *)
Fixpoint combinations2 {A : Type} (l : list A) : list (A * A) :=
  match l with
  | [] => []
  | x :: rest => map (pair x) rest ++ combinations2 rest
  end.

(** A Python number or a one-dimensional numpy array. *)
Inductive number : Type :=
| Scalar (x : R)
| NdArray (a : list R).

Definition np_array (l : list Q) : list R := map Q2R l.

(** An element-wise operation on two arrays, a one-item array being
    stretched to the length of the other. *)
Definition np_broadcast (f : R -> R -> R) (a b : list R) : result (list R) :=
  if Nat.eqb (List.length a) (List.length b)
  then Ok (map (fun xy => f (fst xy) (snd xy)) (combine a b))
  else match a, b with
       | [x], _ => Ok (map (f x) b)
       | _, [y] => Ok (map (fun x => f x y) a)
       | _, _ => Raise ValueError
       end.

(** [acc + arr]. *)
Definition number_add (acc : number) (arr : list R) : result number :=
  match acc with
  | Scalar x => Ok (NdArray (map (Rplus x) arr))
  | NdArray a => r <- np_broadcast Rplus a arr ;; Ok (NdArray r)
  end.

(** [acc[0]]: a plain number cannot be indexed. *)
Definition number_first (acc : number) : result R :=
  match acc with
  | Scalar _ => Raise TypeError
  | NdArray a => py_index a 0
  end.

(** [np.max] over all the items; an empty input has no maximum. *)
Definition np_max (arrs : list (list R)) : result R :=
  match List.concat arrs with
  | [] => Raise ValueError
  | x :: rest => Ok (fold_left Rmax rest x)
  end.

(** [1.0 - np.exp(-0.25 * d ** 2)]. *)
Definition ionic (d : R) : R := (1 - exp (- (1 / 4) * (d * d)))%R.

Definition ionic_body (el_amt : el_amt_dict) (st : list (list R) * number)
           (pair : (string * Q) * (string * Q)) : result (list (list R) * number) :=
  let '(ionic_char, avg_ionic_char) := st in
  XA <- get_magpie_descriptor (fst (fst pair)) "Electronegativity" ;;
  XB <- get_magpie_descriptor (fst (snd pair)) "Electronegativity" ;;
  d <- np_broadcast Rminus (np_array XA) (np_array XB) ;;
  let last := map ionic d in
  fa <- get_atomic_fraction el_amt (snd (fst pair)) ;;
  fb <- get_atomic_fraction el_amt (snd (snd pair)) ;;
  avg <- number_add avg_ionic_char (map (Rmult (Q2R fa * Q2R fb)) last) ;;
  Ok (ionic_char ++ [last], avg).

Definition get_ionic_attributes (comp : string) : result (R * R) :=
  el_amt <- get_el_amt_dict env comp ;;
  let atom_pairs := combinations2 el_amt in
  st <- for_each (ionic_body el_amt) atom_pairs ([], Scalar 0) ;;
  let '(ionic_char, avg_ionic_char) := st in
  max_ionic_char <- np_max ionic_char ;;
  avg0 <- number_first avg_ionic_char ;;
  Ok (max_ionic_char, avg0).

End WithEnv.

(** *** [get_holder_mean] *)

Local Open Scope py_scope.

(** [geomean = lambda n: reduce(lambda x, y: x * y, n) ** (1.0 / len(n))]. *)
Definition geomean (n : list R) : result R :=
  prod <- py_reduce Rmult n ;;
  e <- py_fdiv 1 (INR (List.length n)) ;;
  py_pow prod e.

Definition holder_body (power : R) (total : R) (value : R) : result R :=
  t <- py_pow value power ;; Ok (total + t)%R.

Definition get_holder_mean (data_lst : list R) (power : R) : result R :=
  if Req_dec_T power 0 then geomean data_lst
  else
    total <- for_each (holder_body power) data_lst 0%R ;;
    mean <- py_fdiv total (INR (List.length data_lst)) ;;
    e <- py_fdiv 1 power ;;
    py_pow mean e.

(** *** Notions used in the statements *)


(** The attribute is known for the element: no data, or a quantity. *)
Definition known_for (env : Env) (prop : string) (item : string * Q) : Prop :=
  element_getattr env (fst item) prop = Ok AttrNoneV
  \/ exists q u, element_getattr env (fst item) prop = Ok (AttrQuantity q u).

(** The expansion as the specification words it: each element's tabulated
    value, [floor(amount)] times, in the order of the composition. *)
Definition spec_expand (tab : string -> Q) (el_amt : el_amt_dict) : list Q :=
  flat_map (fun item => repeat (tab (fst item)) (Z.to_nat (Qfloor (snd item))))
           el_amt.

(** [sum(floor(amount_i))]. *)
Definition floor_sum (el_amt : el_amt_dict) : Z :=
  fold_right (fun item s => (Qfloor (snd item) + s)%Z) 0%Z el_amt.

(** The table gives [tab el] for the element: its line exists and parses. *)
Definition tabulated (env : Env) (lines : list string) (tab : string -> Q)
           (item : string * Q) : Prop :=
  exists line,
    py_index lines (element_Z env (fst item) - 1) = Ok line
    /\ parse_float env line = Ok (tab (fst item)).

(** The mode as the specification words it: among the most frequent values,
    the one met first in a scan of the sequence itself. *)
Definition mode_first_seen (data_lst : list Q) : result Q :=
  py_max_key (count data_lst) data_lst.

Definition spec_sum (v : list R) : R := fold_right Rplus 0%R v.


Definition spec_power_mean (v : list R) (p : R) : R :=
  Rpower (spec_sum (map (fun x => Rpower x p) v) / INR (List.length v))%R (1 / p)%R.

(** The total atom count and the p-norm as the specification words them. *)
Definition spec_total_atom_count (el_amt : el_amt_dict) : Q :=
  fold_right (fun item s => (snd item + s)%Q) 0%Q el_amt.

Definition spec_fraction (el_amt : el_amt_dict) (amount : Q) : R :=
  Q2R (amount / spec_total_atom_count el_amt).

Definition spec_p_norm (el_amt : el_amt_dict) (p : R) : R :=
  Rpower (spec_sum (map (fun item => Rpower (spec_fraction el_amt (snd item)) p)
                        el_amt))
         (1 / p)%R.

Definition positive_amounts (el_amt : el_amt_dict) : Prop :=
  Forall (fun item => (0 < snd item)%Q) el_amt.

(** The fraction-weighted mean as the specification words it: the sum over
    the elements of the atomic fraction times the element's value. *)
Definition value_of (per_element_values : el_amt_dict) (el : string) : Q :=
  match find (fun kv => String.eqb (fst kv) el) per_element_values with
  | Some kv => snd kv
  | None => 0%Q
  end.

Definition spec_fraction_weighted_mean (el_amt per_element_values : el_amt_dict) : Q :=
  fold_right
    (fun item s =>
       (snd item / spec_total_atom_count el_amt
        * value_of per_element_values (fst item) + s)%Q)
    0%Q el_amt.

End CompositionFeatures.

(** ** A small environment to run the functions on

    Four formulas, five elements, a data directory with a README and tables
    of whole numbers, and a set that iterates like a CPython set of a few
    floats with whole values. *)

Module Fixture.

Import CompositionFeatures.
Local Open Scope string_scope.
Local Open Scope list_scope.

Definition parse_formula (comp : string) : result el_amt_dict :=
  if String.eqb comp "NaCl" then Ok [("Na", 1%Q); ("Cl", 1%Q)]
  else if String.eqb comp "Fe2O3" then Ok [("Fe", 2%Q); ("O", 3%Q)]
  else if String.eqb comp "Fe" then Ok [("Fe", 1%Q)]
  else if String.eqb comp "He" then Ok [("He", 1%Q)]
  else if String.eqb comp "Na" then Ok [("Na", 1%Q)]
  else if String.eqb comp "Cl" then Ok [("Cl", 1%Q)]
  else if String.eqb comp "O" then Ok [("O", 1%Q)]
  else Raise ValueError.

Definition atomic_number (el : string) : Z :=
  if String.eqb el "He" then 2
  else if String.eqb el "O" then 8
  else if String.eqb el "Na" then 11
  else if String.eqb el "Cl" then 17
  else if String.eqb el "Fe" then 26
  else 1.

(** Electronegativity for every element; the expansion coefficient is
    tabulated for iron and sodium only; every other name is unknown. *)
Definition periodic_table (el prop : string) : result attr_value :=
  if String.eqb prop "X" then
    Ok (AttrNumber (if String.eqb el "Fe" then 183 # 100
                    else if String.eqb el "O" then 344 # 100
                    else if String.eqb el "Na" then 93 # 100
                    else if String.eqb el "Cl" then 316 # 100
                    else 0))
  else if String.eqb prop "coefficient_of_linear_thermal_expansion" then
    Ok (if String.eqb el "Fe" then AttrQuantity (118 # 10000000) "K^-1"
        else if String.eqb el "Na" then AttrQuantity (71 # 1000000) "K^-1"
        else AttrNoneV)
  else Raise AttributeError.

Definition line_of (n : Z) : string :=
  (NilZero.string_of_int (Z.to_int n) ++ String newline "")%string.

(** A table of thirty lines, line [k] holding [f (k + 1)]. *)
Definition table_of (f : Z -> Z) : list string :=
  map (fun k => line_of (f (Z.of_nat k))) (seq 1 30).

Definition readme_lines : list string :=
  map (fun s => (s ++ String newline "")%string)
    ["Lookup data"; "";
     "Number.table"; "  Atomic number"; "  Units: none";
     "NValance.table"; "  Number of valence electrons"; "  Units: electrons";
     "End"; ""].

(** Valence electrons of the fixture: none for helium. *)
Definition valence_of (z : Z) : Z := if (z =? 2)%Z then 0 else (z mod 8)%Z.

Definition data_files : list (string * list string) :=
  [("README.txt", readme_lines);
   ("Number.table", table_of (fun z => z));
   ("NValance.table", table_of valence_of);
   ("NsValence.table", table_of (fun z => if (z =? 2)%Z then 0 else 1)%Z);
   ("NpValence.table", table_of (fun z => if (z =? 2)%Z then 0 else 2)%Z);
   ("NdValence.table", table_of (fun _ => 0%Z));
   ("NfValence.table", table_of (fun _ => 0%Z));
   ("Electronegativity.table", table_of (fun z => z mod 4)%Z)].

Fixpoint assoc {A : Type} (k : string) (l : list (string * A)) : option A :=
  match l with
  | [] => None
  | (k', v) :: rest => if String.eqb k' k then Some v else assoc k rest
  end.

Definition read_file (name : string) : result (list string) :=
  match assoc name data_files with
  | Some ls => Ok ls
  | None => Raise IOError
  end.

(** [float] on a line holding a whole number. *)
Definition float_of_line (s : string) : result Q :=
  match NilZero.int_of_string (str_strip newline s) with
  | Some i => Ok (inject_Z (Z.of_int i))
  | None => Raise ValueError
  end.

(** The hash of a float with the whole value [n]: [n], but [-2] for [-1]. *)
Definition float_hash (q : Q) : Z :=
  let n := Qfloor q in if (n =? -1)%Z then (-2)%Z else n.

(** A hash table of eight slots: a float goes to the slot of the low three
    bits of its hash, or to the next free slot; the set is iterated slot
    by slot. *)
Definition slot_of (q : Q) : nat := Z.to_nat (float_hash q mod 8).

Fixpoint table_put (tries i : nat) (tbl : list (option Q)) (q : Q)
  : list (option Q) :=
  match tries with
  | O => tbl
  | S tries' =>
      match nth i tbl None with
      | None => firstn i tbl ++ Some q :: skipn (S i) tbl
      | Some q' =>
          if Qeq_bool q' q then tbl
          else table_put tries' (Nat.modulo (S i) 8) tbl q
      end
  end.

Definition set_order (l : list Q) : list Q :=
  flat_map (fun o => match o with Some q => [q] | None => [] end)
    (fold_left (fun tbl q => table_put 8 (slot_of q) tbl q) l (repeat None 8)).

(** The mean and the standard deviation without rounding. *)
Definition exact_mean (l : list Q) : Q :=
  (qsum l / inject_Z (Z.of_nat (List.length l)))%Q.

Definition exact_std (l : list Q) : R :=
  sqrt (Q2R (exact_mean (map (fun x => (x - exact_mean l) * (x - exact_mean l))%Q l))).

Definition demo_env : Env :=
  {| get_el_amt_dict := parse_formula;
     element_getattr := periodic_table;
     element_Z := atomic_number;
     listdir := map fst data_files;
     readlines := read_file;
     parse_float := float_of_line;
     set_iter := set_order;
     np_mean := exact_mean;
     np_std := exact_std |}.

End Fixture.

(** ** [get_cohesive_energy] and [band_center] *)

Module Energies.

Import CompositionFeatures.
Local Open Scope string_scope.
Local Open Scope list_scope.

(** An entry of the materials database, with the two fields the code
    reads. *)
Record mp_entry : Type := {
  energy_per_atom : Q;
  formation_energy_per_atom : Q
}.

(** The collaborators of [get_cohesive_energy], on top of [Env]. *)
Record EnergyEnv : Type := {
  base : Env;
  (** [MPRester().get_data(comp)] *)
  mp_get_data : string -> result (list mp_entry);
  (** [json.load] of [cohesive_energies.json]: [ce_data] *)
  ce_data : list (string * Q)
}.

(** Results of this part: a value, a built-in exception, or the [KeyError]
    of a dictionary lookup. *)
Inductive eresult (A : Type) : Type :=
| EOk (a : A)
| ERaise (e : exn)
| EKeyError (key : string).

Arguments EOk {A} a.
Arguments ERaise {A} e.
Arguments EKeyError {A} key.

Definition ebind {A B : Type} (m : eresult A) (k : A -> eresult B) : eresult B :=
  match m with
  | EOk a => k a
  | ERaise e => ERaise e
  | EKeyError key => EKeyError key
  end.

Definition lift {A : Type} (m : result A) : eresult A :=
  match m with
  | Ok a => EOk a
  | Raise e => ERaise e
  end.

Fixpoint efor_each {A S : Type} (body : S -> A -> eresult S) (xs : list A) (s : S)
  : eresult S :=
  match xs with
  | [] => EOk s
  | x :: rest => ebind (body s x) (efor_each body rest)
  end.

(** [sorted(l, key=key)]: a stable sort; an item goes before the first
    item whose key is not smaller than its own. *)
Fixpoint insert_sorted {A : Type} (key : A -> Q) (e : A) (l : list A) : list A :=
  match l with
  | [] => [e]
  | x :: rest =>
      if Qle_bool (key e) (key x) then e :: l else x :: insert_sorted key e rest
  end.

Definition py_sorted {A : Type} (key : A -> Q) (l : list A) : list A :=
  fold_right (insert_sorted key) [] l.

(** [ce_data[el]]. *)
Definition ce_lookup (env : EnergyEnv) (el : string) : eresult Q :=
  match find (fun kv => String.eqb (fst kv) el) (ce_data env) with
  | Some kv => EOk (snd kv)
  | None => EKeyError el
  end.

(** [cohesive_energy -= el_amt_dict[el] * ce_data[el]]. *)
Definition cohesive_body (env : EnergyEnv) (cohesive_energy : Q)
           (item : string * Q) : eresult Q :=
  ebind (ce_lookup env (fst item))
        (fun ce => EOk (cohesive_energy - snd item * ce)%Q).

Definition get_cohesive_energy (env : EnergyEnv) (comp : string) : eresult Q :=
  ebind (lift (get_el_amt_dict (base env) comp)) (fun el_amt_dict =>
  ebind (lift (mp_get_data env comp)) (fun struct_lst =>
  if Nat.ltb 0 (List.length struct_lst) then
    let struct_lst' := py_sorted energy_per_atom struct_lst in
    ebind (lift (py_index struct_lst' 0)) (fun most_stable_entry =>
    let formation_energy := formation_energy_per_atom most_stable_entry in
    efor_each (cohesive_body env) el_amt_dict formation_energy)
  else ERaise ValueError)).

(** [Element(el).X]. *)
Definition element_X (env : Env) (el : string) : result Q :=
  bind (element_getattr env el "X") attr_float.

(** [prod = prod * (Element(el).X ** amt)]. *)
Definition band_body (env : Env) (prod : R) (item : string * Q) : result R :=
  bind (element_X env (fst item)) (fun x =>
  bind (py_pow (Q2R x) (Q2R (snd item))) (fun t =>
  Ok (prod * t)%R)).

(** [band_center(comp)] on the element-to-amount mapping of the
    composition object: [-prod ** (1 / sum(...))], the minus sign applying
    to the power. *)
Definition band_center (env : Env) (comp : el_amt_dict) : result R :=
  bind (for_each (band_body env) comp 1%R) (fun prod =>
  bind (py_fdiv 1 (Q2R (qsum (values comp)))) (fun e =>
  bind (py_pow prod e) (fun r =>
  Ok (- r)%R))).

(** *** Notions used in the statements *)

(** [sum(amount_i * ce_i)] from the left, as the loop subtracts. *)
Definition weighted_ce (ce : string -> Q) (el_amt : el_amt_dict) : Q :=
  fold_left (fun s item => (s + snd item * ce (fst item))%Q) el_amt 0%Q.

(** The weighted geometric mean of the electronegativities. *)
Definition spec_band_product (x : string -> Q) (comp : el_amt_dict) : R :=
  fold_right (fun item r => (Rpower (Q2R (x (fst item))) (Q2R (snd item)) * r)%R)
             1%R comp.

(** A database and reference energies to run on. *)
Definition demo_energy_env : EnergyEnv :=
  {| base := Fixture.demo_env;
     mp_get_data := fun comp =>
       if String.eqb comp "NaCl" then
         Ok [{| energy_per_atom := (-3) # 1; formation_energy_per_atom := (-2) # 1 |};
             {| energy_per_atom := (-7) # 2; formation_energy_per_atom := (-21) # 10 |};
             {| energy_per_atom := (-7) # 2; formation_energy_per_atom := (-5) # 2 |}]
       else if String.eqb comp "Fe2O3" then
         Ok [{| energy_per_atom := (-6) # 1; formation_energy_per_atom := (-17) # 10 |}]
       else Ok [];
     ce_data := [("Na", 111 # 100); ("Cl", 140 # 100); ("Fe", 428 # 100)] |}.

End Energies.

(** ** Further notions used in the statements *)

Module Notions.

Import CompositionFeatures.
Local Open Scope string_scope.
Local Open Scope list_scope.

(** What one element adds to the per-atom list of
    [get_pymatgen_descriptor]: its value, [int(amount)] times, or nothing
    when the periodic table has no data for it. *)
Definition per_atom_values (env : Env) (prop : string) (item : string * Q) : list Q :=
  match element_getattr env (fst item) prop with
  | Ok (AttrQuantity q _) | Ok (AttrNumber q) =>
      repeat q (range_len (py_int (snd item)))
  | _ => []
  end.

(** The attribute is a plain number for the element. *)
Definition plain_number_for (env : Env) (prop : string) (item : string * Q) : Prop :=
  exists q, element_getattr env (fst item) prop = Ok (AttrNumber q).


(** The amounts multiplied by [k]. *)
Definition scale_amounts (k : Q) (el_amt : el_amt_dict) : el_amt_dict :=
  map (fun item => (fst item, (k * snd item)%Q)) el_amt.

(** The fixture with two more formulas, one in fractions and one doubled. *)
Definition more_env : Env :=
  {| get_el_amt_dict := fun comp =>
       if String.eqb comp "Fe0.4O0.6" then Ok [("Fe", 2 # 5); ("O", 3 # 5)]
       else if String.eqb comp "Fe4O6" then Ok [("Fe", 4 # 1); ("O", 6 # 1)]
       else Fixture.parse_formula comp;
     element_getattr := Fixture.periodic_table;
     element_Z := Fixture.atomic_number;
     listdir := map fst Fixture.data_files;
     readlines := Fixture.read_file;
     parse_float := Fixture.float_of_line;
     set_iter := Fixture.set_order;
     np_mean := Fixture.exact_mean;
     np_std := Fixture.exact_std |}.

(** A data directory with a table for each of the 22 properties, every
    table holding the atomic numbers. *)
Definition full_env : Env :=
  {| get_el_amt_dict := Fixture.parse_formula;
     element_getattr := Fixture.periodic_table;
     element_Z := Fixture.atomic_number;
     listdir := "README.txt" :: map (fun d => d ++ ".table")%string magpie_desc;
     readlines := fun name =>
       if String.eqb name "README.txt" then Ok Fixture.readme_lines
       else Ok (Fixture.table_of (fun z => z));
     parse_float := Fixture.float_of_line;
     set_iter := Fixture.set_order;
     np_mean := Fixture.exact_mean;
     np_std := Fixture.exact_std |}.

(** The minimum and the maximum of a row are values of the list that bound
    every value of it, and the range is not negative. *)
Definition extremes_of (data_lst : list Q) (st : desc_stats) : Prop :=
  In (s_min st) data_lst /\ In (s_max st) data_lst
  /\ (forall x, In x data_lst -> s_min st <= x /\ x <= s_max st)%Q
  /\ (0 <= s_range st)%Q.

(** The row holds the statistics of the per-atom values of the property. *)
Definition row_for (env : Env) (comp desc : string) (row : desc_stats) : Prop :=
  exists data_lst,
    get_magpie_descriptor env comp desc = Ok data_lst
    /\ summary_stats env data_lst = Ok row
    /\ extremes_of data_lst row.


(** The fixture with sodium bromide: bromine has atomic number 35, and the
    tables of the fixture have 30 lines. *)
Definition bromide_env : Env :=
  {| get_el_amt_dict := fun comp =>
       if String.eqb comp "NaBr" then Ok [("Na", 1 # 1); ("Br", 1 # 1)]
       else Fixture.parse_formula comp;
     element_getattr := Fixture.periodic_table;
     element_Z := fun el =>
       if String.eqb el "Br" then 35%Z else Fixture.atomic_number el;
     listdir := map fst Fixture.data_files;
     readlines := Fixture.read_file;
     parse_float := Fixture.float_of_line;
     set_iter := Fixture.set_order;
     np_mean := Fixture.exact_mean;
     np_std := Fixture.exact_std |}.

End Notions.

(** * Properties *)

Import FlattenDict Oxidation CompositionFeatures.

(** ** The error monad *)

Lemma bind_ok {A B : Type} (m : result A) (k : A -> result B) (a : A) :
  m = Ok a -> bind m k = k a.
Proof. intros ->. reflexivity. Qed.

Lemma bind_raise {A B : Type} (m : result A) (k : A -> result B) (e : exn) :
  m = Raise e -> bind m k = Raise e.
Proof. intros ->. reflexivity. Qed.

(** ** [flatten_dict] *)

Section FlattenDictFacts.



Lemma key_eqb_eq (a b : key) : key_eqb a b = true <-> a = b.
Proof.
  destruct a as [s|n], b as [t|m]; simpl; split; intros H; try discriminate.
  - apply String.eqb_eq in H. now subst.
  - injection H as ->. apply String.eqb_refl.
  - apply Z.eqb_eq in H. now subst.
  - injection H as ->. apply Z.eqb_refl.
Qed.

Lemma dict_set_fresh (d : dict) (k : key) (v : pyval) :
  ~ In k (map fst d) -> dict_set d k v = d ++ [(k, v)].
Proof.
  induction d as [|[k' v'] d IH]; simpl; intros Hk.
  - reflexivity.
  - destruct (key_eqb k' k) eqn:E.
    + apply key_eqb_eq in E. exfalso. apply Hk. now left.
    + rewrite IH; [reflexivity|]. intros Hin. apply Hk. now right.
Qed.

Lemma dict_set_no_dict (d : dict) (k : key) (v : pyval) :
  no_dict_values d -> is_dict v = false -> no_dict_values (dict_set d k v).
Proof.
  unfold no_dict_values.
  induction d as [|[k' v'] d IH]; simpl; intros Hd Hv.
  - constructor; [exact Hv | constructor].
  - inversion Hd as [|? ? Hhd Htl]; subst.
    destruct (key_eqb k' k); constructor; auto.
Qed.

Lemma dict_update_no_dict (other d : dict) :
  no_dict_values d -> no_dict_values other -> no_dict_values (dict_update d other).
Proof.
  unfold dict_update. revert d.
  induction other as [|[k v] other IH]; simpl; intros d Hd Ho.
  - exact Hd.
  - inversion Ho as [|? ? Hv Hrest]; subst.
    apply IH; [|exact Hrest]. now apply dict_set_no_dict.
Qed.


Lemma flatten_dict_S (fuel' : nat) (d : dict) (lead_key : option key) (u : bool) :
  flatten_dict (S fuel') d lead_key u
  = fold_left (flatten_step fuel' lead_key u) d (Some []).
Proof. reflexivity. Qed.

Lemma fold_flatten_step_None (fuel' : nat) (lead : option key) (u : bool) (d : dict) :
  fold_left (flatten_step fuel' lead u) d None = None.
Proof. induction d as [|kv d IH]; simpl; auto. Qed.

(** On scalar values with distinct keys the loop copies its input. *)
Lemma fold_flatten_flat (fuel' : nat) (u : bool) (d pre : dict) :
  flat_values d -> NoDup (map fst (pre ++ d)) ->
  fold_left (flatten_step fuel' None u) d (Some pre) = Some (pre ++ d).
Proof.
  revert pre. induction d as [|[k v] d IH]; intros pre Hflat Hnd; cbn [fold_left].
  - now rewrite app_nil_r.
  - inversion Hflat as [|? ? [Hd Ha] Hrest]; subst. simpl in Hd, Ha.
    assert (Hstep : flatten_step fuel' None u (Some pre) (k, v)
                    = Some (pre ++ [(k, v)])).
    { assert (Hfresh : ~ In k (map fst pre)).
      { rewrite map_app in Hnd. simpl in Hnd.
        apply NoDup_remove_2 in Hnd. intros Hin. apply Hnd.
        apply in_or_app. now left. }
      unfold flatten_step; simpl.
      destruct v; simpl in *; try discriminate;
        now rewrite dict_set_fresh. }
    rewrite Hstep.
    replace (pre ++ (k, v) :: d) with ((pre ++ [(k, v)]) ++ d)
      by (rewrite <- app_assoc; reflexivity).
    apply IH; [exact Hrest|].
    rewrite <- app_assoc. exact Hnd.
Qed.

Lemma flatten_dict_no_dict (fuel : nat) :
  forall (d : dict) (lead : option key) (u : bool) (r : dict),
    flatten_dict fuel d lead u = Some r -> no_dict_values r.
Proof.
  induction fuel as [|fuel' IH]; intros d lead u r H.
  - discriminate.
  - rewrite flatten_dict_S in H.
    assert (Hgen : forall (items : dict) (acc : dict),
               no_dict_values acc ->
               fold_left (flatten_step fuel' lead u) items (Some acc) = Some r ->
               no_dict_values r).
    { induction items as [|[k v] items IHi]; intros acc Hacc Hf;
        cbn [fold_left] in Hf.
      - injection Hf as <-. exact Hacc.
      - destruct (flatten_step fuel' lead u (Some acc) (k, v)) as [acc'|] eqn:E.
        + apply (IHi acc'); [|exact Hf].
          unfold flatten_step in E; simpl in E.
          destruct v; simpl in E;
            try (injection E as <-; now apply dict_set_no_dict).
          * destruct (flatten_dict fuel' items0 _ u) as [r'|] eqn:E'; [|discriminate].
            injection E as <-. apply dict_update_no_dict; [exact Hacc|].
            exact (IH _ _ _ _ E').
          * destruct u.
            -- destruct (flatten_dict fuel' (enumerate xs) _ true) as [r'|] eqn:E';
                 [|discriminate].
               injection E as <-. apply dict_update_no_dict; [exact Hacc|].
               exact (IH _ _ _ _ E').
            -- injection E as <-. now apply dict_set_no_dict.
          * destruct u.
            -- destruct (flatten_dict fuel' (enumerate xs) _ true) as [r'|] eqn:E';
                 [|discriminate].
               injection E as <-. apply dict_update_no_dict; [exact Hacc|].
               exact (IH _ _ _ _ E').
            -- injection E as <-. now apply dict_set_no_dict.
        + rewrite fold_flatten_step_None in Hf. discriminate. }
    apply (Hgen d []); [constructor | exact H].
Qed.


Lemma depth_PDict (l : dict) : depth (PDict l) = S (items_depth l).
Proof. reflexivity. Qed.

Lemma depth_PList (l : list pyval) : depth (PList l) = S (list_depth l).
Proof. reflexivity. Qed.

Lemma depth_PTuple (l : list pyval) : depth (PTuple l) = S (list_depth l).
Proof. reflexivity. Qed.

Lemma items_depth_enumerate (xs : list pyval) (i : Z) :
  items_depth (enumerate_from i xs) = list_depth xs.
Proof.
  revert i. induction xs as [|x xs IH]; intros i; simpl; [reflexivity|].
  now rewrite IH.
Qed.

(** Enough fuel: the nesting depth. *)
Lemma flatten_dict_total (fuel : nat) :
  forall (d : dict) (lead : option key) (u : bool),
    (dict_depth d <= fuel)%nat -> exists r, flatten_dict fuel d lead u = Some r.
Proof.
  induction fuel as [|fuel' IH]; intros d lead u Hlt;
    [unfold dict_depth in Hlt; rewrite depth_PDict in Hlt; lia|].
  rewrite flatten_dict_S.
  unfold dict_depth in Hlt. rewrite depth_PDict in Hlt.
  assert (Hd : (items_depth d <= fuel')%nat) by lia. clear Hlt.
  generalize (@nil (key * pyval)) as acc.
  induction d as [|[k v] d IHd]; intros acc; cbn [fold_left].
  - now exists acc.
  - simpl in Hd.
    assert (Hv : (depth v <= fuel')%nat) by lia.
    assert (Hrest : (items_depth d <= fuel')%nat) by lia.
    assert (Hstep : exists acc', flatten_step fuel' lead u (Some acc) (k, v) = Some acc').
    { unfold flatten_step; simpl.
      destruct v; try (eexists; reflexivity).
      - rewrite depth_PDict in Hv.
        destruct (IH items (Some (make_flat_key lead k)) u) as [r Hr].
        { unfold dict_depth. rewrite depth_PDict. lia. }
        rewrite Hr. eexists; reflexivity.
      - rewrite depth_PList in Hv. destruct u; [|eexists; reflexivity].
        destruct (IH (enumerate xs) (Some (make_flat_key lead k)) true) as [r Hr].
        { unfold dict_depth, enumerate.
          rewrite depth_PDict, items_depth_enumerate. lia. }
        rewrite Hr. eexists; reflexivity.
      - rewrite depth_PTuple in Hv. destruct u; [|eexists; reflexivity].
        destruct (IH (enumerate xs) (Some (make_flat_key lead k)) true) as [r Hr].
        { unfold dict_depth, enumerate.
          rewrite depth_PDict, items_depth_enumerate. lia. }
        rewrite Hr. eexists; reflexivity. }
    destruct Hstep as [acc' Hacc']. rewrite Hacc'. apply IHd. exact Hrest.
Qed.

(** C9: with no [lead_key], [flatten_dict] gives back a dictionary whose
    values are all scalars (no dictionary, list or tuple) as it is; and for
    every dictionary, lead key and setting of [unwind_arrays] it returns a
    dictionary none of whose values is a dictionary. *)
Theorem flatten_dict_identity_on_flat_and_no_dict_values :
  (forall (d : dict) (unwind_arrays : bool) (fuel : nat),
      flat_values d -> NoDup (map fst d) ->
      flatten_dict (S fuel) d None unwind_arrays = Some d)
  /\ (forall (d : dict) (lead_key : option key) (unwind_arrays : bool) (fuel : nat),
         (dict_depth d <= fuel)%nat ->
         exists r, flatten_dict fuel d lead_key unwind_arrays = Some r
                   /\ no_dict_values r).
Proof.
  split.
  - intros d u fuel Hflat Hnd. rewrite flatten_dict_S.
    apply (@fold_flatten_flat fuel u d []); assumption.
  - intros d lead u fuel Hlt.
    destruct (flatten_dict_total lead u Hlt) as [r Hr].
    exists r. split; [exact Hr|]. exact (flatten_dict_no_dict _ _ _ _ Hr).
Qed.

End FlattenDictFacts.

Lemma flatten_dict_identity_on_flat_and_no_dict_values_witness :
  FlattenDict.flatten_dict 1
    [(FlattenDict.KStr "a", FlattenDict.PInt 1);
     (FlattenDict.KStr "b", FlattenDict.PStr "x")] None true
  = Some [(FlattenDict.KStr "a", FlattenDict.PInt 1);
          (FlattenDict.KStr "b", FlattenDict.PStr "x")]
  /\ exists r,
      FlattenDict.flatten_dict 2
        [(FlattenDict.KStr "a",
          FlattenDict.PDict [(FlattenDict.KStr "b", FlattenDict.PInt 1);
                             (FlattenDict.KStr "c", FlattenDict.PInt 2)])]
        None true = Some r
      /\ no_dict_values r.
Proof.
  split.
  - apply (proj1 flatten_dict_identity_on_flat_and_no_dict_values).
    + repeat constructor.
    + repeat constructor; simpl; intuition discriminate.
  - apply (proj2 flatten_dict_identity_on_flat_and_no_dict_values).
    vm_compute. lia.
Defined.

(** ** [has_oxidation_states] *)

Section OxidationFacts.



Lemma lacks_oxi_state_run (el : species) (c : Composition) :
  lacks_oxi_state el c = Ok (lacks_value el, c).
Proof.
  unfold lacks_oxi_state, lacks_value, pbind, hasattr_oxi_state, get_oxi_state, ret.
  destruct (oxi_state_slot el); reflexivity.
Qed.

Lemma py_any_run (els : list species) (c : Composition) :
  py_any lacks_oxi_state els c = Ok (existsb lacks_value els, c).
Proof.
  induction els as [|el els IH]; simpl.
  - reflexivity.
  - unfold pbind. rewrite lacks_oxi_state_run.
    destruct (lacks_value el); simpl; [reflexivity | exact IH].
Qed.

Lemma no_lack_iff_all_values (els : list species) :
  negb (existsb lacks_value els) = true <-> Forall has_value els.
Proof.
  induction els as [|el els IH]; simpl.
  - split; [constructor | reflexivity].
  - rewrite negb_orb, andb_true_iff, IH. split.
    + intros [Hel Hels]. constructor; [|exact Hels].
      unfold lacks_value in Hel. unfold has_value.
      destruct (oxi_state_slot el) as [| |q]; try discriminate. now exists q.
    + intros H. inversion H as [|? ? [q Hq] Hels]; subst. split; [|exact Hels].
      unfold lacks_value. now rewrite Hq.
Qed.

(** C10: [has_oxidation_states] returns normally on every composition
    object, leaves the object as it was, and its answer is [True] exactly
    when every element has an [oxi_state] attribute whose value is not
    [None]. *)
Theorem has_oxidation_states_iff_all_values (comp : Composition) :
  exists b : bool,
    has_oxidation_states comp = Ok (b, comp)
    /\ (b = true <-> Forall has_value (elements comp)).
Proof.
  exists (negb (existsb lacks_value (elements comp))). split.
  - unfold has_oxidation_states, pbind, get_elements, ret.
    now rewrite py_any_run.
  - apply no_lack_iff_all_values.
Qed.

End OxidationFacts.

(** ** [get_frac_weighted_mean], [get_ionic_attributes],
       [get_valence_orbital_attributes] *)

Section SimpleReturns.

Variable env : Env.

(** C1: [get_frac_weighted_mean] hands back the element-to-amount mapping of
    the composition, whatever the per-element values are; it never returns
    a number, so it does not return the fraction-weighted sum. *)
Theorem get_frac_weighted_mean_returns_mapping
        (comp : string) (data_lst el_amt : el_amt_dict) :
  get_el_amt_dict env comp = Ok el_amt ->
  get_frac_weighted_mean env comp data_lst = Ok (PyMapping el_amt)
  /\ forall x : Q, get_frac_weighted_mean env comp data_lst <> Ok (PyFloat x).
Proof.
  intros Hparse. unfold get_frac_weighted_mean.
  rewrite (bind_ok _ Hparse). split.
  - reflexivity.
  - intros x Hx. discriminate Hx.
Qed.

(** C2: on a composition with a single element there is no pair, the list
    of ionic characters stays empty and [np.max] raises [ValueError]. *)
Theorem get_ionic_attributes_single_element_raises
        (comp el : string) (amount : Q) :
  get_el_amt_dict env comp = Ok [(el, amount)] ->
  get_ionic_attributes env comp = Raise ValueError.
Proof.
  intros Hparse. unfold get_ionic_attributes.
  rewrite (bind_ok _ Hparse).
  cbn [combinations2 map app for_each bind].
  reflexivity.
Qed.

Lemma py_div_by_zero (a b : Q) : (b == 0)%Q -> py_div a b = Raise ZeroDivisionError.
Proof.
  intros Hb. unfold py_div.
  now rewrite (proj2 (Qeq_bool_iff b 0) Hb).
Qed.

(** C8: when the loop over the elements ends with a fraction-weighted total
    valence of zero, the first quotient raises [ZeroDivisionError]; no
    tuple of fractions is returned. *)
Theorem get_valence_orbital_attributes_zero_total_raises
        (comp : string) (el_amt : el_amt_dict) (total s p d f : Q) :
  get_el_amt_dict env comp = Ok el_amt ->
  valence_sums env el_amt = Ok (total, s, p, d, f) ->
  (total == 0)%Q ->
  get_valence_orbital_attributes env comp = Raise ZeroDivisionError.
Proof.
  intros Hparse Hsums Hzero. unfold get_valence_orbital_attributes.
  rewrite (bind_ok _ Hparse), (bind_ok _ Hsums).
  now rewrite (py_div_by_zero s Hzero).
Qed.

End SimpleReturns.

Lemma get_frac_weighted_mean_returns_mapping_witness :
  CompositionFeatures.get_frac_weighted_mean Fixture.demo_env "NaCl"
    [("Na"%string, 1%Q); ("Cl"%string, 2%Q)]
  = Ok (CompositionFeatures.PyMapping [("Na"%string, 1%Q); ("Cl"%string, 1%Q)])
  /\ forall x : Q,
      CompositionFeatures.get_frac_weighted_mean Fixture.demo_env "NaCl"
        [("Na"%string, 1%Q); ("Cl"%string, 2%Q)]
      <> Ok (CompositionFeatures.PyFloat x).
Proof.
  apply (@get_frac_weighted_mean_returns_mapping Fixture.demo_env "NaCl").
  reflexivity.
Defined.

(** What the specification promises at the same input: the number 3/2. *)
Example spec_fraction_weighted_mean_NaCl :
  (spec_fraction_weighted_mean
     [("Na"%string, 1%Q); ("Cl"%string, 1%Q)]
     [("Na"%string, 1%Q); ("Cl"%string, 2%Q)] == 3 # 2)%Q.
Proof. vm_compute. reflexivity. Qed.

Lemma get_ionic_attributes_single_element_raises_witness :
  CompositionFeatures.get_ionic_attributes Fixture.demo_env "Fe" = Raise ValueError.
Proof.
  apply (@get_ionic_attributes_single_element_raises
           Fixture.demo_env "Fe" "Fe" 1%Q).
  reflexivity.
Defined.

Lemma get_valence_orbital_attributes_zero_total_raises_witness :
  CompositionFeatures.get_valence_orbital_attributes Fixture.demo_env "He"
  = Raise ZeroDivisionError.
Proof.
  apply (@get_valence_orbital_attributes_zero_total_raises
           Fixture.demo_env "He" [("He"%string, 1%Q)] 0%Q 0%Q 0%Q 0%Q 0%Q).
  - reflexivity.
  - vm_compute. reflexivity.
  - reflexivity.
Defined.

(** ** [get_pymatgen_descriptor] *)

Section AttributeReader.

Variable env : Env.
Variable prop : string.


Lemma pymatgen_body_None (eldata : list Q) (tups : list eldata_tup)
      (el : string) (amount : Q) :
  element_getattr env el prop = Ok AttrNoneV ->
  pymatgen_body env prop (eldata, tups) (el, amount)
  = Ok (eldata,
        tups ++ [{| element := el; propname := prop; propvalue := None;
                    propunit := None; amt := amount |}]).
Proof.
  intros H. unfold pymatgen_body. now rewrite (bind_ok _ H).
Qed.

Lemma pymatgen_body_quantity (eldata : list Q) (tups : list eldata_tup)
      (el : string) (amount q : Q) (u : string) :
  element_getattr env el prop = Ok (AttrQuantity q u) ->
  exists units,
    pymatgen_body env prop (eldata, tups) (el, amount)
    = Ok (eldata ++ repeat q (range_len (py_int amount)),
          tups ++ [{| element := el; propname := prop; propvalue := Some q;
                      propunit := units; amt := amount |}]).
Proof.
  intros H. unfold pymatgen_body. rewrite (bind_ok _ H).
  cbn [bool_is_None py_callable attr_unit attr_float bind].
  destruct (str_mem prop unitless_props); eexists; reflexivity.
Qed.



End AttributeReader.


(** ** [get_magpie_descriptor] *)

Section PerAtomExpansion.

Variable env : Env.


Lemma py_int_floor (x : Q) : (0 <= x)%Q -> py_int x = Qfloor x.
Proof.
  intros Hx. unfold py_int. destruct x as [n d]. simpl.
  unfold Qle in Hx. simpl in Hx.
  apply Z.quot_div_nonneg; lia.
Qed.

(** Truncation and floor give the same number of repetitions, whatever the
    sign of the amount. *)
Lemma range_len_floor (x : Q) : range_len (py_int x) = Z.to_nat (Qfloor x).
Proof.
  unfold range_len. destruct (Qlt_le_dec x 0) as [Hneg | Hpos].
  - assert (Hq : (py_int x <= 0)%Z).
    { unfold py_int. destruct x as [n d]. unfold Qlt in Hneg. simpl in *.
      assert (Hn : (n < 0)%Z) by lia.
      rewrite <- (Z.opp_involutive n), Z.quot_opp_l by lia.
      assert (0 <= Z.quot (- n) (Z.pos d))%Z by (apply Z.quot_pos; lia).
      lia. }
    assert (Hf : (Qfloor x < 0)%Z).
    { assert (H := Qfloor_le x).
      assert (Hlt : (inject_Z (Qfloor x) < 0)%Q) by (eapply Qle_lt_trans; eauto).
      unfold Qlt, inject_Z in Hlt. simpl in Hlt. lia. }
    lia.
  - now rewrite py_int_floor.
Qed.

Lemma magpie_loop (name : string) (unit : option string) (lines : list string)
      (tab : string -> Q) (items : el_amt_dict) :
  Forall (tabulated env lines tab) items ->
  forall (magpiedata : list Q) (tups : list magpiedata_tup),
    for_each (magpie_body env name unit lines) items (magpiedata, tups)
    = Ok (magpiedata ++ spec_expand tab items,
          tups ++ map (fun item =>
                         {| m_element := fst item; m_propname := name;
                            m_propvalue := tab (fst item); m_propunit := unit;
                            m_amt := snd item |}) items).
Proof.
  induction 1 as [|[el amount] items (line & Hline & Hval) _ IH];
    intros magpiedata tups.
  - simpl. now rewrite !app_nil_r.
  - cbn [for_each]. cbn [fst] in Hline, Hval.
    unfold magpie_body at 1.
    rewrite (bind_ok _ Hline), (bind_ok _ Hval). cbn [bind].
    rewrite IH. unfold spec_expand. cbn [flat_map map fst snd].
    rewrite range_len_floor, <- !app_assoc. reflexivity.
Qed.

Lemma length_spec_expand (tab : string -> Q) (el_amt : el_amt_dict) :
  Forall (fun item => (0 <= snd item)%Q) el_amt ->
  Z.of_nat (List.length (spec_expand tab el_amt)) = floor_sum el_amt.
Proof.
  induction 1 as [|[el amount] items Hpos _ IH]; [reflexivity|].
  unfold spec_expand in *. cbn [flat_map floor_sum fold_right fst snd] in *.
  rewrite length_app, repeat_length, Nat2Z.inj_add, IH.
  fold (floor_sum items).
  assert (0 <= Qfloor amount)%Z.
  { change 0%Z with (Qfloor 0). now apply Qfloor_resp_le. }
  lia.
Qed.

(** C7: for a catalogued property whose files can be read, whose README
    scan ends, and whose table has a value for every element of the
    composition, [get_magpie_descriptor] returns each element's tabulated
    value repeated [floor(amount)] times in the order of the composition;
    with amounts that are not negative the length of the result is the sum
    of the [floor(amount_i)]. *)
Theorem get_magpie_descriptor_expands_per_atom
        (comp descriptor_name : string) (el_amt : el_amt_dict)
        (readme lines : list string) (unit : option string) (tab : string -> Q) :
  str_mem descriptor_name (available_props env) = true ->
  get_el_amt_dict env comp = Ok el_amt ->
  readlines env "README.txt" = Ok readme ->
  for_each (readme_body descriptor_name readme) (enumerate1 readme) None = Ok unit ->
  readlines env (descriptor_name ++ ".table") = Ok lines ->
  Forall (tabulated env lines tab) el_amt ->
  Forall (fun item => (0 <= snd item)%Q) el_amt ->
  get_magpie_descriptor env comp descriptor_name = Ok (spec_expand tab el_amt)
  /\ Z.of_nat (List.length (spec_expand tab el_amt)) = floor_sum el_amt.
Proof.
  intros Hcat Hparse Hreadme Hscan Htable Htab Hpos. split.
  - unfold get_magpie_descriptor, magpie_run.
    rewrite Hcat. cbn [negb].
    rewrite (bind_ok _ Hparse), (bind_ok _ Hreadme), (bind_ok _ Hscan),
      (bind_ok _ Htable).
    rewrite (magpie_loop descriptor_name unit Htab). reflexivity.
  - now apply length_spec_expand.
Qed.

End PerAtomExpansion.

Lemma get_magpie_descriptor_expands_per_atom_witness :
  CompositionFeatures.get_magpie_descriptor Fixture.demo_env "Fe2O3" "Number"
  = Ok (spec_expand (fun el => inject_Z (Fixture.atomic_number el))
          [("Fe"%string, 2%Q); ("O"%string, 3%Q)])
  /\ Z.of_nat (List.length
                 (spec_expand (fun el => inject_Z (Fixture.atomic_number el))
                    [("Fe"%string, 2%Q); ("O"%string, 3%Q)]))
     = floor_sum [("Fe"%string, 2%Q); ("O"%string, 3%Q)].
Proof.
  apply (@get_magpie_descriptor_expands_per_atom
           Fixture.demo_env "Fe2O3" "Number"
           [("Fe"%string, 2%Q); ("O"%string, 3%Q)]
           Fixture.readme_lines (Fixture.table_of (fun z => z))
           (Some " none"%string)
           (fun el => inject_Z (Fixture.atomic_number el))).
  - vm_compute. reflexivity.
  - reflexivity.
  - reflexivity.
  - vm_compute. reflexivity.
  - reflexivity.
  - constructor; [|constructor; [|constructor]];
      eexists; split; vm_compute; reflexivity.
  - constructor; [|constructor; [|constructor]]; simpl; unfold Qle; simpl; lia.
Defined.

Example get_magpie_descriptor_Fe2O3_Number :
  CompositionFeatures.get_magpie_descriptor Fixture.demo_env "Fe2O3" "Number"
  = Ok [26; 26; 8; 8; 8]%Q.
Proof. vm_compute. reflexivity. Qed.

(** A catalogued name does not always give a list.  The name [README.txt]
    is in the catalogue, being a file of the data directory, and the call
    raises [IOError] at [README.txt.table].  The property [Number] is in the
    catalogue too, and with sodium bromide the call raises [IndexError]:
    line 35, bromine's, is beyond the end of a table of 30 lines. *)
Lemma catalogued_name_without_a_list :
  str_mem "README.txt" (available_props Fixture.demo_env) = true
  /\ CompositionFeatures.get_magpie_descriptor Fixture.demo_env "NaCl" "README.txt"
     = Raise IOError
  /\ str_mem "Number" (available_props Notions.bromide_env) = true
  /\ CompositionFeatures.get_magpie_descriptor Notions.bromide_env "NaBr" "Number"
     = Raise IndexError.
Proof. repeat split; vm_compute; reflexivity. Qed.

(** ** The mode of [get_elem_property_attributes] *)

Section Mode.



(** [max(..., key=key)] returns the first item whose key is the largest:
    the keys before it are strictly smaller, the keys after it are not
    larger. *)
Lemma best_from_key_split {A : Type} (key : A -> nat) (l : list A) :
  forall b : A,
  exists pre post,
    b :: l = pre ++ best_from (fun x b' => Nat.ltb (key b') (key x)) b l :: post
    /\ (forall y, In y pre ->
          (key y < key (best_from (fun x b' => Nat.ltb (key b') (key x)) b l))%nat)
    /\ (forall y, In y post ->
          (key y <= key (best_from (fun x b' => Nat.ltb (key b') (key x)) b l))%nat).
Proof.
  induction l as [|x l IH]; intros b.
  - exists [], []. simpl. split; [reflexivity|]. split; intros y [].
  - cbn [best_from]. destruct (Nat.ltb (key b) (key x)) eqn:E.
    + apply Nat.ltb_lt in E.
      destruct (IH x) as (pre & post & Heq & Hpre & Hpost).
      set (m := best_from _ x l) in *.
      assert (Hx : (key x <= key m)%nat).
      { destruct pre as [|p pre].
        - simpl in Heq. injection Heq as Hm _. rewrite <- Hm. lia.
        - simpl in Heq. injection Heq as Hp _. subst p.
          apply Nat.lt_le_incl, Hpre. now left. }
      exists (b :: pre), post. split; [simpl; now rewrite Heq|].
      split; [|exact Hpost].
      intros y [<- | Hy]; [lia | now apply Hpre].
    + apply Nat.ltb_ge in E.
      destruct (IH b) as (pre & post & Heq & Hpre & Hpost).
      set (m := best_from _ b l) in *.
      destruct pre as [|p pre].
      * simpl in Heq. injection Heq as Hm Hl.
        exists [], (x :: post). split; [simpl; now rewrite <- Hm, Hl|].
        split; [intros y []|].
        intros y [<- | Hy]; [rewrite <- Hm; lia | now apply Hpost].
      * simpl in Heq. injection Heq as Hp Hl. subst p.
        exists (b :: x :: pre), post. split; [simpl; now rewrite Hl|].
        split; [|exact Hpost].
        assert (Hb : (key b < key m)%nat) by (apply Hpre; now left).
        intros y [<- | [<- | Hy]]; [exact Hb | lia |].
        apply Hpre. now right.
Qed.

Lemma Qeq_bool_compat_l (x y z : Q) : (x == y)%Q -> Qeq_bool x z = Qeq_bool y z.
Proof.
  intros Hxy. destruct (Qeq_bool y z) eqn:E.
  - apply Qeq_bool_iff. apply Qeq_bool_iff in E. now rewrite Hxy.
  - destruct (Qeq_bool x z) eqn:E'; [|reflexivity].
    apply Qeq_bool_iff in E'. rewrite Hxy in E'.
    apply Qeq_bool_iff in E'. congruence.
Qed.

(** Equal numbers are counted alike. *)
Lemma count_compat (l : list Q) (x y : Q) : (x == y)%Q -> count l x = count l y.
Proof.
  intros Hxy. unfold count. f_equal.
  apply filter_ext. intros z. now apply Qeq_bool_compat_l.
Qed.

Variable env : Env.

(** C4, as the code has it: for a non-empty sequence, when the set built
    from it holds each of its values, the mode is a value of the sequence
    that no other value outnumbers, and among the most frequent values it
    is the one that the iteration of the set meets first. *)
Theorem mode_most_frequent_first_in_set_order (data_lst : list Q) :
  data_lst <> [] ->
  (forall y, In y (set_iter env data_lst) -> In y data_lst) ->
  (forall x, In x data_lst ->
             exists y, In y (set_iter env data_lst) /\ (y == x)%Q) ->
  exists m pre post,
    mode env data_lst = Ok m
    /\ In m data_lst
    /\ (forall x, In x data_lst -> (count data_lst x <= count data_lst m)%nat)
    /\ set_iter env data_lst = pre ++ m :: post
    /\ (forall y, In y pre -> (count data_lst y < count data_lst m)%nat).
Proof.
  intros Hne Hsub Hcov. unfold mode, py_max_key, py_best.
  destruct (set_iter env data_lst) as [|b rest] eqn:Eset.
  - destruct data_lst as [|x l]; [congruence|].
    destruct (Hcov x (or_introl eq_refl)) as (y & [] & _).
  - destruct (best_from_key_split (count data_lst) rest b)
      as (pre & post & Heq & Hpre & Hpost).
    set (m := best_from _ b rest) in *.
    assert (Hin : In m (b :: rest)).
    { rewrite Heq. apply in_or_app. right. now left. }
    exists m, pre, post. split; [reflexivity|].
    split; [now apply Hsub|]. split; [|split; [exact Heq | exact Hpre]].
    intros x Hx. destruct (Hcov x Hx) as (y & Hy & Hyx).
    rewrite <- (count_compat data_lst Hyx).
    rewrite Heq in Hy. apply in_app_or in Hy.
    destruct Hy as [Hy | [<- | Hy]].
    + apply Nat.lt_le_incl. now apply Hpre.
    + lia.
    + now apply Hpost.
Qed.

End Mode.

Lemma mode_most_frequent_first_in_set_order_witness :
  exists m pre post,
    CompositionFeatures.mode Fixture.demo_env [11; 17]%Q = Ok m
    /\ In m [11; 17]%Q
    /\ (forall x, In x [11; 17]%Q ->
                  (CompositionFeatures.count [11; 17]%Q x
                   <= CompositionFeatures.count [11; 17]%Q m)%nat)
    /\ CompositionFeatures.set_iter Fixture.demo_env [11; 17]%Q = pre ++ m :: post
    /\ (forall y, In y pre ->
                  (CompositionFeatures.count [11; 17]%Q y
                   < CompositionFeatures.count [11; 17]%Q m)%nat).
Proof.
  apply (@mode_most_frequent_first_in_set_order Fixture.demo_env [11; 17]%Q).
  - discriminate.
  - vm_compute. tauto.
  - intros x [<- | [<- | []]].
    + exists 11%Q. split; [vm_compute; tauto | reflexivity].
    + exists 17%Q. split; [vm_compute; tauto | reflexivity].
Defined.

(** The atomic numbers of NaCl, 11 and 17, occur once each; the scan of the
    sequence meets 11 first, the set is iterated from 17. *)
Lemma mode_tie_not_first_seen :
  CompositionFeatures.get_magpie_descriptor Fixture.demo_env "NaCl" "Number"
  = Ok [11; 17]%Q
  /\ CompositionFeatures.count [11; 17]%Q 11%Q = CompositionFeatures.count [11; 17]%Q 17%Q
  /\ mode_first_seen [11; 17]%Q = Ok 11%Q
  /\ CompositionFeatures.mode Fixture.demo_env [11; 17]%Q = Ok 17%Q
  /\ CompositionFeatures.mode Fixture.demo_env [11; 17]%Q <> mode_first_seen [11; 17]%Q.
Proof.
  repeat split; try (vm_compute; reflexivity).
  vm_compute. intros H. discriminate H.
Qed.

(** ** [get_holder_mean] *)

Section HolderMean.

Local Open Scope R_scope.


Lemma Rpower_pos (x y : R) : 0 < Rpower x y.
Proof. unfold Rpower. apply exp_pos. Qed.

Lemma py_pow_pos (x y : R) : 0 < x -> py_pow x y = Ok (Rpower x y).
Proof.
  intros Hx. unfold py_pow.
  destruct (Req_dec_T y 0) as [-> | _].
  - now rewrite Rpower_O.
  - destruct (Rlt_dec 0 x); [reflexivity | contradiction].
Qed.

Lemma py_fdiv_ok (a b : R) : b <> 0 -> py_fdiv a b = Ok (a / b).
Proof.
  intros Hb. unfold py_fdiv. destruct (Req_dec_T b 0); [contradiction | reflexivity].
Qed.



Lemma INR_length_pos {A : Type} (l : list A) : l <> [] -> 0 < INR (List.length l).
Proof.
  intros Hne. destruct l as [|x l]; [congruence|].
  apply lt_0_INR. simpl. lia.
Qed.

Lemma holder_loop (p : R) (l : list R) :
  Forall (Rlt 0) l ->
  forall total : R,
    for_each (holder_body p) l total
    = Ok (total + spec_sum (map (fun x => Rpower x p) l)).
Proof.
  induction 1 as [|x l Hx _ IH]; intros total; simpl.
  - f_equal. lra.
  - unfold holder_body at 1. rewrite (py_pow_pos p Hx). cbn [bind].
    rewrite IH. f_equal. lra.
Qed.

Lemma spec_sum_Rpower_pos (p : R) (l : list R) :
  l <> [] -> 0 < spec_sum (map (fun x => Rpower x p) l).
Proof.
  intros Hne. destruct l as [|x l]; [congruence|]. clear Hne. simpl.
  assert (H0 : 0 <= spec_sum (map (fun x => Rpower x p) l)).
  { induction l as [|y l IH]; simpl; [lra|].
    pose proof (Rpower_pos y p). lra. }
  pose proof (Rpower_pos x p). lra.
Qed.


Lemma holder_power (v : list R) (p : R) :
  v <> [] -> Forall (Rlt 0) v -> p <> 0 ->
  get_holder_mean v p = Ok (spec_power_mean v p).
Proof.
  intros Hne Hpos Hp. unfold get_holder_mean.
  destruct (Req_dec_T p 0) as [Hz | _]; [contradiction|].
  rewrite (holder_loop p Hpos). cbn [bind].
  pose proof (INR_length_pos Hne) as Hlen.
  pose proof (spec_sum_Rpower_pos p Hne) as Hsum.
  rewrite py_fdiv_ok by lra. cbn [bind].
  rewrite py_fdiv_ok by exact Hp. cbn [bind].
  rewrite Rplus_0_l. unfold spec_power_mean.
  apply py_pow_pos. now apply Rdiv_lt_0_compat.
Qed.

(** A positive number is pinned down by one of its powers. *)
Lemma root_between (n : nat) (x lo hi c : R) :
  0 < x -> 0 <= lo -> 0 <= hi -> x ^ n = c -> lo ^ n < c -> c < hi ^ n ->
  lo < x < hi.
Proof.
  intros Hx Hlo Hhi Hxn Hl Hh. split.
  - destruct (Rlt_le_dec lo x) as [H | H]; [exact H|].
    assert (x ^ n <= lo ^ n) by (apply pow_incr; lra). lra.
  - destruct (Rlt_le_dec x hi) as [H | H]; [exact H|].
    assert (hi ^ n <= x ^ n) by (apply pow_incr; lra). lra.
Qed.

Lemma Rpower_root_pow (n : nat) (c : R) :
  0 < c -> (0 < n)%nat -> Rpower c (1 / INR n) ^ n = c.
Proof.
  intros Hc Hn.
  rewrite <- Rpower_pow by apply Rpower_pos.
  rewrite Rpower_mult.
  replace (1 / INR n * INR n) with 1.
  - now apply Rpower_1.
  - field. apply not_0_INR. lia.
Qed.



End HolderMean.


(** ** [get_stoich_attributes] *)

Section Stoichiometry.



Lemma fold_left_Qplus (l : list Q) (a : Q) :
  (fold_left Qplus l a == a + fold_right Qplus 0 l)%Q.
Proof.
  revert a. induction l as [|x l IH]; intros a; simpl.
  - ring.
  - rewrite IH. ring.
Qed.

Lemma n_atoms_total (el_amt : el_amt_dict) :
  (n_atoms el_amt == spec_total_atom_count el_amt)%Q.
Proof.
  unfold n_atoms, qsum, values. rewrite fold_left_Qplus.
  induction el_amt as [|[el a] rest IH]; simpl.
  - ring.
  - rewrite <- IH. ring.
Qed.

Lemma spec_total_nonneg (el_amt : el_amt_dict) :
  positive_amounts el_amt -> (0 <= spec_total_atom_count el_amt)%Q.
Proof.
  induction 1 as [|[el a] rest Ha _ IH]; simpl in *.
  - apply Qle_refl.
  - apply Qlt_le_weak in Ha.
    replace 0%Q with (0 + 0)%Q by reflexivity. now apply Qplus_le_compat.
Qed.

Lemma spec_total_pos (el_amt : el_amt_dict) :
  el_amt <> [] -> positive_amounts el_amt -> (0 < spec_total_atom_count el_amt)%Q.
Proof.
  intros Hne Hpos. destruct el_amt as [|[el a] rest]; [congruence|].
  inversion Hpos as [|? ? Ha Hrest]; subst. simpl in *.
  pose proof (spec_total_nonneg Hrest) as H0.
  replace 0%Q with (0 + 0)%Q by reflexivity.
  now apply Qplus_lt_le_compat.
Qed.

Lemma py_div_ok (a b : Q) : ~ (b == 0)%Q -> py_div a b = Ok (a / b)%Q.
Proof.
  intros Hb. unfold py_div. destruct (Qeq_bool b 0) eqn:E; [|reflexivity].
  apply Qeq_bool_iff in E. contradiction.
Qed.

Lemma spec_fraction_pos (el_amt : el_amt_dict) (a : Q) :
  (0 < spec_total_atom_count el_amt)%Q -> (0 < a)%Q ->
  (0 < spec_fraction el_amt a)%R.
Proof.
  intros Hn Ha. unfold spec_fraction.
  rewrite <- RMicromega.Q2R_0. apply Qlt_Rlt.
  apply Qlt_shift_div_l; [exact Hn|]. now rewrite Qmult_0_l.
Qed.

Lemma stoich_loop (el_amt : el_amt_dict) (p : R) (items : el_amt_dict) :
  (0 < spec_total_atom_count el_amt)%Q ->
  positive_amounts items ->
  forall acc : R,
    for_each (stoich_body (n_atoms el_amt) p) items acc
    = Ok (acc + spec_sum (map (fun item => Rpower (spec_fraction el_amt (snd item)) p)
                              items))%R.
Proof.
  intros Hn. induction 1 as [|[el a] rest Ha _ IH]; intros acc; simpl.
  - f_equal. lra.
  - unfold stoich_body at 1. cbn [snd] in *.
    assert (Hnz : ~ (n_atoms el_amt == 0)%Q).
    { rewrite n_atoms_total. intros E. rewrite E in Hn. now apply Qlt_irrefl in Hn. }
    rewrite (py_div_ok a Hnz). cbn [bind].
    assert (Hfrac : Q2R (a / n_atoms el_amt) = spec_fraction el_amt a).
    { unfold spec_fraction. apply Qeq_eqR. now rewrite n_atoms_total. }
    rewrite Hfrac, (py_pow_pos p (@spec_fraction_pos el_amt a Hn Ha)). cbn [bind].
    rewrite IH. f_equal. lra.
Qed.

Lemma spec_sum_pos (l : list R) : l <> [] -> Forall (Rlt 0) l -> (0 < spec_sum l)%R.
Proof.
  intros Hne Hpos. destruct Hpos as [|x l Hx Hl]; [congruence|]. simpl.
  assert (0 <= spec_sum l)%R.
  { clear Hne. induction Hl as [|y l Hy _ IH]; simpl; lra. }
  lra.
Qed.

Variable env : Env.

Lemma stoich_zero (comp : string) (el_amt : el_amt_dict) :
  get_el_amt_dict env comp = Ok el_amt ->
  get_stoich_attributes env comp 0 = Ok (Q2R (n_atoms el_amt)).
Proof.
  intros Hparse. unfold get_stoich_attributes. rewrite (bind_ok _ Hparse).
  destruct (Req_dec_T 0 0) as [_ | Hn]; [reflexivity | now elim Hn].
Qed.

Lemma stoich_power (comp : string) (el_amt : el_amt_dict) (p : R) :
  get_el_amt_dict env comp = Ok el_amt ->
  el_amt <> [] -> positive_amounts el_amt -> p <> 0%R ->
  get_stoich_attributes env comp p = Ok (spec_p_norm el_amt p).
Proof.
  intros Hparse Hne Hpos Hp. unfold get_stoich_attributes.
  rewrite (bind_ok _ Hparse).
  destruct (Req_dec_T p 0) as [Hz | _]; [contradiction|].
  pose proof (spec_total_pos Hne Hpos) as Hn.
  rewrite (@stoich_loop el_amt p el_amt Hn Hpos). cbn [bind].
  rewrite (py_fdiv_ok 1 Hp). cbn [bind].
  rewrite Rplus_0_l. unfold spec_p_norm.
  apply py_pow_pos. apply spec_sum_pos.
  - destruct el_amt; [congruence | discriminate].
  - apply Forall_map. apply Forall_forall. intros item _. apply Rpower_pos.
Qed.

End Stoichiometry.

Section StoichiometryExample.

Local Open Scope R_scope.

Lemma Rpower_cube (x : R) : 0 < x -> Rpower x 3 = x ^ 3.
Proof.
  intros Hx. rewrite <- Rpower_pow by exact Hx. f_equal. simpl. lra.
Qed.

Lemma stoich_Fe2O3_value :
  get_stoich_attributes Fixture.demo_env "Fe2O3" 3
  = Ok (Rpower ((4 / 10) ^ 3 + (6 / 10) ^ 3) (1 / 3)).
Proof.
  rewrite (@stoich_power Fixture.demo_env "Fe2O3"
             [("Fe"%string, 2%Q); ("O"%string, 3%Q)] 3 eq_refl).
  - f_equal. unfold spec_p_norm. f_equal.
    cbn [map spec_sum fold_right snd].
    assert (Hfe : spec_fraction [("Fe"%string, 2%Q); ("O"%string, 3%Q)] 2 = 4 / 10).
    { unfold spec_fraction. transitivity (Q2R (2 # 5)).
      - apply Qeq_eqR. reflexivity.
      - unfold Q2R. simpl. lra. }
    assert (Ho : spec_fraction [("Fe"%string, 2%Q); ("O"%string, 3%Q)] 3 = 6 / 10).
    { unfold spec_fraction. transitivity (Q2R (3 # 5)).
      - apply Qeq_eqR. reflexivity.
      - unfold Q2R. simpl. lra. }
    rewrite Hfe, Ho, !Rpower_cube by lra. lra.
  - discriminate.
  - repeat constructor.
  - lra.
Qed.

Lemma cube_root_bounds :
  65415 / 100000 < Rpower ((4 / 10) ^ 3 + (6 / 10) ^ 3) (1 / 3) < 65425 / 100000.
Proof.
  assert (Hc : 0 < (4 / 10) ^ 3 + (6 / 10) ^ 3) by lra.
  assert (H3 : Rpower ((4 / 10) ^ 3 + (6 / 10) ^ 3) (1 / INR 3) ^ 3
               = (4 / 10) ^ 3 + (6 / 10) ^ 3)
    by (apply Rpower_root_pow; [exact Hc | lia]).
  replace (INR 3) with 3 in H3 by (simpl; lra).
  apply (@root_between 3 _ _ _ ((4 / 10) ^ 3 + (6 / 10) ^ 3)); try lra.
  apply Rpower_pos.
Qed.

(** For Fe2O3 and p = 3 the code gives the cube root of 0.28, which is not
    0.6595 to four decimals: it is more than 0.005 away. *)
Lemma stoich_Fe2O3_is_not_0_6595 :
  exists x : R,
    get_stoich_attributes Fixture.demo_env "Fe2O3" 3 = Ok x
    /\ x = Rpower ((4 / 10) ^ 3 + (6 / 10) ^ 3) (1 / 3)
    /\ 5 / 1000 < Rabs (x - 6595 / 10000).
Proof.
  exists (Rpower ((4 / 10) ^ 3 + (6 / 10) ^ 3) (1 / 3)).
  split; [exact stoich_Fe2O3_value|]. split; [reflexivity|].
  pose proof cube_root_bounds as [Hlo Hhi].
  rewrite Rabs_left by lra. lra.
Qed.

(** C6, with the number put right: with p = 0 [get_stoich_attributes] is
    the total atom count; on a composition with at least one element and
    positive amounts, with [p <> 0] it is the sum of the [f_i ** p] raised
    to [1/p]; for Fe2O3 and p = 3 it is [(0.4^3 + 0.6^3)^(1/3)], which is
    0.6542 to four decimals. *)
Theorem get_stoich_attributes_count_and_norm :
  (forall (env : Env) (comp : string) (el_amt : el_amt_dict),
      get_el_amt_dict env comp = Ok el_amt ->
      get_stoich_attributes env comp 0 = Ok (Q2R (n_atoms el_amt))
      /\ (n_atoms el_amt == spec_total_atom_count el_amt)%Q
      /\ (el_amt <> [] -> positive_amounts el_amt ->
          forall p : R, p <> 0 ->
                        get_stoich_attributes env comp p = Ok (spec_p_norm el_amt p)))
  /\ get_stoich_attributes Fixture.demo_env "Fe2O3" 3
     = Ok (Rpower ((4 / 10) ^ 3 + (6 / 10) ^ 3) (1 / 3))
  /\ Rabs (Rpower ((4 / 10) ^ 3 + (6 / 10) ^ 3) (1 / 3) - 6542 / 10000) < 5 / 100000.
Proof.
  split; [|split].
  - intros env comp el_amt Hparse. split; [|split].
    + now apply stoich_zero.
    + apply n_atoms_total.
    + intros Hne Hpos p Hp. now apply stoich_power.
  - exact stoich_Fe2O3_value.
  - pose proof cube_root_bounds as [Hlo Hhi]. apply Rabs_def1; lra.
Qed.

End StoichiometryExample.

Lemma get_stoich_attributes_count_and_norm_witness :
  CompositionFeatures.get_stoich_attributes Fixture.demo_env "Fe2O3" 0%R
  = Ok (Q2R (CompositionFeatures.n_atoms [("Fe"%string, 2%Q); ("O"%string, 3%Q)]))
  /\ CompositionFeatures.get_stoich_attributes Fixture.demo_env "Fe2O3" 2%R
     = Ok (spec_p_norm [("Fe"%string, 2%Q); ("O"%string, 3%Q)] 2%R).
Proof.
  destruct (proj1 get_stoich_attributes_count_and_norm Fixture.demo_env
              "Fe2O3"%string
              [("Fe"%string, 2%Q); ("O"%string, 3%Q)] eq_refl)
    as (Hzero & _ & Hnorm).
  split; [exact Hzero|].
  apply Hnorm.
  - discriminate.
  - repeat constructor.
  - lra.
Defined.

(** * Further properties *)

Import Notions Energies.

(** ** [flatten_dict]: keys, arrays, idempotence *)

Section FlattenDictMore.

Lemma dict_set_Forall (P : key * pyval -> Prop) (d : dict) (k : key) (v : pyval) :
  Forall P d -> P (k, v) -> Forall P (dict_set d k v).
Proof.
  induction d as [|[k' v'] d IH]; simpl; intros Hd Hkv.
  - constructor; [exact Hkv | constructor].
  - inversion Hd as [|? ? Hhd Htl]; subst.
    destruct (key_eqb k' k) eqn:E.
    + apply key_eqb_eq in E. subst k'. constructor; assumption.
    + constructor; auto.
Qed.

Lemma dict_update_Forall (P : key * pyval -> Prop) (other d : dict) :
  Forall P d -> Forall P other -> Forall P (dict_update d other).
Proof.
  unfold dict_update. revert d.
  induction other as [|[k v] other IH]; simpl; intros d Hd Ho.
  - exact Hd.
  - inversion Ho as [|? ? Hv Hrest]; subst.
    apply IH; [|exact Hrest]. now apply dict_set_Forall.
Qed.

Lemma dict_set_keys (d : dict) (k : key) (v : pyval) :
  map fst (dict_set d k v)
  = if existsb (fun k' => key_eqb k' k) (map fst d) then map fst d
    else map fst d ++ [k].
Proof.
  induction d as [|[k' v'] d IH]; simpl.
  - reflexivity.
  - destruct (key_eqb k' k) eqn:E; simpl.
    + reflexivity.
    + rewrite IH. now destruct (existsb _ (map fst d)).
Qed.

Lemma dict_set_NoDup (d : dict) (k : key) (v : pyval) :
  NoDup (map fst d) -> NoDup (map fst (dict_set d k v)).
Proof.
  intros Hnd. rewrite dict_set_keys.
  destruct (existsb (fun k' => key_eqb k' k) (map fst d)) eqn:E; [exact Hnd|].
  apply NoDup_app; [exact Hnd | constructor; [intros [] | constructor] |].
  intros x Hx [Hk | []]. subst x.
  assert (Ht : existsb (fun k' => key_eqb k' k) (map fst d) = true).
  { apply existsb_exists. exists k. split; [exact Hx | now apply key_eqb_eq]. }
  congruence.
Qed.

Lemma dict_update_NoDup (other d : dict) :
  NoDup (map fst d) -> NoDup (map fst (dict_update d other)).
Proof.
  unfold dict_update. revert d.
  induction other as [|[k v] other IH]; simpl; intros d Hd; [exact Hd|].
  apply IH. now apply dict_set_NoDup.
Qed.

(** Updating with new keys appends. *)
Lemma dict_update_fresh (other d : dict) :
  NoDup (map fst (d ++ other)) -> dict_update d other = d ++ other.
Proof.
  unfold dict_update. revert d.
  induction other as [|[k v] other IH]; simpl; intros d Hnd.
  - now rewrite app_nil_r.
  - rewrite dict_set_fresh.
    + rewrite IH; rewrite <- app_assoc; [reflexivity | exact Hnd].
    + rewrite map_app in Hnd. simpl in Hnd.
      apply NoDup_remove_2 in Hnd. intros Hin. apply Hnd.
      apply in_or_app. now left.
Qed.

(** The loop of [flatten_dict] keeps any property of items that its three
    kinds of step keep. *)
Lemma flatten_dict_Forall (P : option key -> key * pyval -> Prop) (u : bool) :
  (forall lead k v,
      is_dict v = false -> (u = true -> is_array v = false) ->
      P lead (make_flat_key lead k, v)) ->
  (forall lead k kv, P (Some (make_flat_key lead k)) kv -> P lead kv) ->
  forall (fuel : nat) (d : dict) (lead : option key) (r : dict),
    flatten_dict fuel d lead u = Some r -> Forall (P lead) r.
Proof.
  intros Hleaf Hsub. induction fuel as [|fuel' IH]; intros d lead r H.
  - discriminate.
  - rewrite flatten_dict_S in H.
    assert (Hgen : forall (items acc : dict),
               Forall (P lead) acc ->
               fold_left (flatten_step fuel' lead u) items (Some acc) = Some r ->
               Forall (P lead) r).
    { induction items as [|[k v] items IHi]; intros acc Hacc Hf;
        cbn [fold_left] in Hf.
      - injection Hf as <-. exact Hacc.
      - destruct (flatten_step fuel' lead u (Some acc) (k, v)) as [acc'|] eqn:E;
          [|rewrite fold_flatten_step_None in Hf; discriminate].
        apply (IHi acc'); [|exact Hf].
        assert (Hrec : forall sub r',
                   flatten_dict fuel' sub (Some (make_flat_key lead k)) u = Some r' ->
                   Forall (P lead) (dict_update acc r')).
        { intros sub r' Hr'. apply dict_update_Forall; [exact Hacc|].
          apply IH in Hr'. revert Hr'. apply Forall_impl. intros kv. apply Hsub. }
        unfold flatten_step in E; cbn [fst snd] in E.
        destruct v; cbn [is_dict is_array] in *;
          try (injection E as <-; apply dict_set_Forall;
               [exact Hacc | apply Hleaf; [reflexivity | reflexivity]]).
        + destruct (flatten_dict fuel' items0 _ u) as [r'|] eqn:E'; [|discriminate].
          injection E as <-. exact (Hrec _ _ E').
        + destruct u.
          * destruct (flatten_dict fuel' (enumerate xs) _ true) as [r'|] eqn:E';
              [|discriminate].
            injection E as <-. exact (Hrec _ _ E').
          * injection E as <-. apply dict_set_Forall; [exact Hacc|].
            apply Hleaf; [reflexivity | discriminate].
        + destruct u.
          * destruct (flatten_dict fuel' (enumerate xs) _ true) as [r'|] eqn:E';
              [|discriminate].
            injection E as <-. exact (Hrec _ _ E').
          * injection E as <-. apply dict_set_Forall; [exact Hacc|].
            apply Hleaf; [reflexivity | discriminate]. }
    apply (Hgen d []); [constructor | exact H].
Qed.

Lemma flatten_dict_NoDup (fuel : nat) :
  forall (d : dict) (lead : option key) (u : bool) (r : dict),
    flatten_dict fuel d lead u = Some r -> NoDup (map fst r).
Proof.
  induction fuel as [|fuel' IH]; intros d lead u r H; [discriminate|].
  rewrite flatten_dict_S in H.
  assert (Hgen : forall (items acc : dict),
             NoDup (map fst acc) ->
             fold_left (flatten_step fuel' lead u) items (Some acc) = Some r ->
             NoDup (map fst r)).
  { induction items as [|[k v] items IHi]; intros acc Hacc Hf;
      cbn [fold_left] in Hf.
    - injection Hf as <-. exact Hacc.
    - destruct (flatten_step fuel' lead u (Some acc) (k, v)) as [acc'|] eqn:E;
        [|rewrite fold_flatten_step_None in Hf; discriminate].
      apply (IHi acc'); [|exact Hf].
      unfold flatten_step in E; cbn [fst snd] in E.
      destruct v;
        try (injection E as <-; now apply dict_set_NoDup).
      + destruct (flatten_dict fuel' items0 _ u) as [r'|]; [|discriminate].
        injection E as <-. now apply dict_update_NoDup.
      + destruct u.
        * destruct (flatten_dict fuel' (enumerate xs) _ true) as [r'|]; [|discriminate].
          injection E as <-. now apply dict_update_NoDup.
        * injection E as <-. now apply dict_set_NoDup.
      + destruct u.
        * destruct (flatten_dict fuel' (enumerate xs) _ true) as [r'|]; [|discriminate].
          injection E as <-. now apply dict_update_NoDup.
        * injection E as <-. now apply dict_set_NoDup. }
  apply (Hgen d []); [constructor | exact H].
Qed.

(** With [unwind_arrays] set, every value of the result is a scalar. *)
Lemma flatten_dict_unwound (fuel : nat) (d : dict) (lead : option key) (r : dict) :
  flatten_dict fuel d lead true = Some r -> flat_values r.
Proof.
  intros H. unfold flat_values.
  apply (@flatten_dict_Forall
           (fun _ kv => is_dict (snd kv) = false /\ is_array (snd kv) = false)
           true) with (fuel := fuel) (d := d) (lead := lead); [| |exact H].
  - intros l k v Hd Ha. cbn [snd]. split; [exact Hd | now apply Ha].
  - intros l k kv Hkv. exact Hkv.
Qed.

(** X1: flattening twice gives what flattening once gives: with arrays unwound
    the result has scalar values only and, without a lead key, is its own
    flattening. *)
Theorem flatten_dict_idempotent
        (fuel fuel' : nat) (d : dict) (lead_key : option key) (r : dict) :
  flatten_dict fuel d lead_key true = Some r ->
  flat_values r /\ flatten_dict (S fuel') r None true = Some r.
Proof.
  intros H. pose proof (flatten_dict_unwound _ _ _ H) as Hflat.
  split; [exact Hflat|].
  rewrite flatten_dict_S.
  apply (@fold_flatten_flat fuel' true r []); [exact Hflat|].
  exact (flatten_dict_NoDup _ _ _ _ H).
Qed.

Lemma str_append_assoc (a b c : string) :
  ((a ++ b) ++ c = a ++ (b ++ c))%string.
Proof. induction a as [|ch a IH]; simpl; [reflexivity | now rewrite IH]. Qed.

Lemma str_append_inj_l (a b c : string) : (a ++ b = a ++ c)%string -> b = c.
Proof.
  induction a as [|ch a IH]; simpl; intros H; [exact H|].
  injection H as H. now apply IH.
Qed.

Lemma truthy_dotted (a b : string) : truthy (Some (KStr (a ++ "." ++ b))) = true.
Proof. destruct a; reflexivity. Qed.

Lemma make_flat_key_truthy (lead k : key) :
  truthy (Some lead) = true ->
  make_flat_key (Some lead) k = KStr (key_str lead ++ "." ++ key_str k).
Proof. intros H. unfold make_flat_key. now rewrite H. Qed.

Lemma make_flat_key_falsy (lead : option key) (k : key) :
  truthy lead = false -> make_flat_key lead k = k.
Proof. intros H. unfold make_flat_key. destruct lead; [now rewrite H | reflexivity]. Qed.

(** X2: under a lead key that counts as true, every key of the result is the
    lead key, a dot, and a rest: the dot notation of the docstring. *)
Theorem flatten_dict_keys_prefixed
        (fuel : nat) (d : dict) (lead : key) (unwind_arrays : bool) (r : dict) :
  truthy (Some lead) = true ->
  flatten_dict fuel d (Some lead) unwind_arrays = Some r ->
  Forall (fun kv => exists rest : string,
              fst kv = KStr (key_str lead ++ "." ++ rest)) r.
Proof.
  intros Ht H.
  pose (P := fun (l : option key) (kv : key * pyval) =>
               match l with
               | Some lk => truthy l = true ->
                            exists rest, fst kv = KStr (key_str lk ++ "." ++ rest)
               | None => True
               end).
  assert (HP : Forall (P (Some lead)) r).
  { apply (@flatten_dict_Forall P unwind_arrays) with (fuel := fuel) (d := d);
      [| |exact H].
    - intros [lk|] k v _ _; [|exact I]. intros Hl.
      rewrite (@make_flat_key_truthy lk k Hl). now exists (key_str k).
    - intros [lk|] k kv Hkv; [|exact I]. intros Hl.
      rewrite (@make_flat_key_truthy lk k Hl) in Hkv.
      destruct (Hkv (truthy_dotted _ _)) as [rest Hrest].
      exists (key_str k ++ "." ++ rest)%string.
      rewrite Hrest. cbn [key_str]. now rewrite !str_append_assoc. }
  revert HP. apply Forall_impl. intros kv Hkv. exact (Hkv Ht).
Qed.

(** Without unwinding, lists and tuples are values like any other: a
    dictionary without dictionary values comes back as it is. *)
Lemma fold_flatten_keep_arrays (fuel' : nat) (d pre : dict) :
  no_dict_values d -> NoDup (map fst (pre ++ d)) ->
  fold_left (flatten_step fuel' None false) d (Some pre) = Some (pre ++ d).
Proof.
  revert pre. induction d as [|[k v] d IH]; intros pre Hflat Hnd; cbn [fold_left].
  - now rewrite app_nil_r.
  - inversion Hflat as [|? ? Hd Hrest]; subst. simpl in Hd.
    assert (Hstep : flatten_step fuel' None false (Some pre) (k, v)
                    = Some (pre ++ [(k, v)])).
    { assert (Hfresh : ~ In k (map fst pre)).
      { rewrite map_app in Hnd. simpl in Hnd.
        apply NoDup_remove_2 in Hnd. intros Hin. apply Hnd.
        apply in_or_app. now left. }
      unfold flatten_step; simpl.
      destruct v; simpl in *; try discriminate;
        now rewrite dict_set_fresh. }
    rewrite Hstep.
    replace (pre ++ (k, v) :: d) with ((pre ++ [(k, v)]) ++ d)
      by (rewrite <- app_assoc; reflexivity).
    apply IH; [exact Hrest|].
    rewrite <- app_assoc. exact Hnd.
Qed.

(** X3: With unwind_arrays=False a dictionary that has no dictionary
    among its values is returned unchanged: lists and tuples stay as
    values. *)
Theorem flatten_dict_keeps_arrays_when_not_unwinding (fuel : nat) (d : dict) :
  no_dict_values d -> NoDup (map fst d) ->
  flatten_dict (S fuel) d None false = Some d.
Proof.
  intros Hflat Hnd. rewrite flatten_dict_S.
  now apply (@fold_flatten_keep_arrays fuel d []).
Qed.

Lemma flatten_dict_falsy_lead (fuel : nat) (d : dict) (lead : option key) (u : bool) :
  truthy lead = false -> flatten_dict fuel d lead u = flatten_dict fuel d None u.
Proof.
  intros Hf. destruct fuel as [|fuel']; [reflexivity|].
  rewrite !flatten_dict_S. generalize (Some (@nil (key * pyval))) as acc.
  induction d as [|kv d IH]; intros acc; cbn [fold_left]; [reflexivity|].
  rewrite IH. f_equal.
  unfold flatten_step. now rewrite (@make_flat_key_falsy lead (fst kv) Hf).
Qed.

(** X4: a key that counts as false ([""] or [0]) gives no prefix: a dictionary
    nested under it at the top level is flattened as if it were the top
    level itself. *)
Theorem flatten_dict_falsy_key_gives_no_prefix
        (fuel : nat) (k0 : key) (d : dict) (unwind_arrays : bool) :
  truthy (Some k0) = false ->
  flatten_dict (S fuel) [(k0, PDict d)] None unwind_arrays
  = flatten_dict fuel d None unwind_arrays.
Proof.
  intros Hf. rewrite flatten_dict_S. cbn [fold_left flatten_step fst snd].
  cbn [make_flat_key].
  rewrite (@flatten_dict_falsy_lead fuel d (Some k0) unwind_arrays Hf).
  destruct (flatten_dict fuel d None unwind_arrays) as [r|] eqn:E; [|reflexivity].
  cbn [option_map]. f_equal.
  apply (@dict_update_fresh r []). simpl.
  exact (flatten_dict_NoDup _ _ _ _ E).
Qed.

Lemma key_str_int_inj (i j : Z) : key_str (KInt i) = key_str (KInt j) -> i = j.
Proof.
  cbn [key_str]. intros H.
  assert (Hn : forall n : Z,
             NilZero.int_of_string (NilZero.string_of_int (Z.to_int n))
             = Some (Z.to_int n)).
  { intros n. apply NilZero.isi; destruct n; simpl; try discriminate;
      intros E; injection E as E; revert E; apply Unsigned.to_uint_nonnil. }
  assert (E : Some (Z.to_int i) = Some (Z.to_int j)) by (rewrite <- !Hn; now rewrite H).
  injection E as E. now apply DecimalZ.to_int_inj.
Qed.

(** The items [lead.i] that a list under [lead] turns into. *)
Lemma enumerate_from_keys (xs : list pyval) (i : Z) :
  Forall (fun kv => exists j, fst kv = KInt j /\ (i <= j)%Z) (enumerate_from i xs)
  /\ NoDup (map fst (enumerate_from i xs)).
Proof.
  revert i. induction xs as [|x xs IH]; intros i; simpl.
  - split; constructor.
  - destruct (IH (i + 1)%Z) as [Hall Hnd]. split.
    + constructor; [exists i; simpl; split; [reflexivity | lia]|].
      revert Hall. apply Forall_impl. intros kv (j & Hj & Hle).
      exists j. split; [exact Hj | lia].
    + constructor; [|exact Hnd]. intros Hin.
      apply in_map_iff in Hin. destruct Hin as (kv & Hk & Hin).
      rewrite Forall_forall in Hall. destruct (Hall kv Hin) as (j & Hj & Hle).
      rewrite Hj in Hk. injection Hk as Hk. lia.
Qed.

Lemma fold_flatten_dotted (fuel' : nat) (lead : key) (u : bool) (d pre : dict) :
  truthy (Some lead) = true ->
  flat_values d ->
  NoDup (map fst (pre ++ map (fun kv => (KStr (key_str lead ++ "." ++ key_str (fst kv)),
                                        snd kv)) d)) ->
  fold_left (flatten_step fuel' (Some lead) u) d (Some pre)
  = Some (pre ++ map (fun kv => (KStr (key_str lead ++ "." ++ key_str (fst kv)),
                                 snd kv)) d).
Proof.
  intros Ht. revert pre.
  induction d as [|[k v] d IH]; intros pre Hflat Hnd; cbn [fold_left map].
  - now rewrite app_nil_r.
  - inversion Hflat as [|? ? [Hd Ha] Hrest]; subst. cbn [fst snd map] in *.
    assert (Hstep : flatten_step fuel' (Some lead) u (Some pre) (k, v)
                    = Some (pre ++ [(KStr (key_str lead ++ "." ++ key_str k), v)])).
    { assert (Hfresh : ~ In (KStr (key_str lead ++ "." ++ key_str k)) (map fst pre)).
      { rewrite map_app in Hnd. cbn [map fst] in Hnd.
        apply NoDup_remove_2 in Hnd. intros Hin. apply Hnd.
        apply in_or_app. now left. }
      unfold flatten_step. cbn [fst snd].
      rewrite (@make_flat_key_truthy lead k Ht).
      destruct v; simpl in Hd, Ha; try discriminate;
        now rewrite dict_set_fresh. }
    rewrite Hstep.
    match goal with
    | |- _ = Some (pre ++ ?x :: ?l) =>
        replace (pre ++ x :: l) with ((pre ++ [x]) ++ l)
          by (rewrite <- app_assoc; reflexivity)
    end.
    apply IH; [exact Hrest|].
    rewrite <- app_assoc. exact Hnd.
Qed.

Lemma dotted_enumerate_NoDup (lead : key) (xs : list pyval) (i : Z) :
  NoDup (map fst (map (fun kv => (KStr (key_str lead ++ "." ++ key_str (fst kv)),
                                  snd kv)) (enumerate_from i xs))).
Proof.
  destruct (enumerate_from_keys xs i) as [Hall Hnd].
  rewrite map_map. cbn [fst].
  rewrite <- (map_map fst (fun k => KStr (key_str lead ++ "." ++ key_str k))).
  apply NoDup_map_NoDup_ForallPairs; [|exact Hnd].
  intros a b Ha Hb Hab.
  apply in_map_iff in Ha. destruct Ha as (kva & <- & Hina).
  apply in_map_iff in Hb. destruct Hb as (kvb & <- & Hinb).
  rewrite Forall_forall in Hall.
  destruct (Hall kva Hina) as (ja & Hja & _).
  destruct (Hall kvb Hinb) as (jb & Hjb & _).
  rewrite Hja, Hjb in *. injection Hab as Hab.
  apply str_append_inj_l in Hab. injection Hab as Hab.
  now rewrite (@key_str_int_inj ja jb Hab).
Qed.

Lemma enumerate_from_flat (xs : list pyval) (i : Z) :
  Forall (fun x => is_dict x = false /\ is_array x = false) xs ->
  flat_values (enumerate_from i xs).
Proof.
  intros H. revert i. induction H as [|x xs Hx _ IH]; intros i; simpl.
  - constructor.
  - constructor; [exact Hx | apply IH].
Qed.

(** X5: a list (or tuple) of scalars under the key [k] becomes the items
    [k.0], [k.1], ... in the order of the list. *)
Theorem flatten_dict_unwinds_list
        (fuel : nat) (k : key) (xs : list pyval) :
  truthy (Some k) = true ->
  Forall (fun x => is_dict x = false /\ is_array x = false) xs ->
  flatten_dict (S (S fuel)) [(k, PList xs)] None true
  = Some (map (fun kv => (KStr (key_str k ++ "." ++ key_str (fst kv)), snd kv))
              (enumerate xs))
  /\ flatten_dict (S (S fuel)) [(k, PTuple xs)] None true
     = flatten_dict (S (S fuel)) [(k, PList xs)] None true.
Proof.
  intros Ht Hxs. split; [|reflexivity].
  rewrite flatten_dict_S. cbn [fold_left flatten_step fst snd make_flat_key].
  rewrite flatten_dict_S.
  etransitivity.
  { apply f_equal.
    apply (@fold_flatten_dotted fuel k true (enumerate xs) [] Ht).
    - now apply enumerate_from_flat.
    - simpl. apply dotted_enumerate_NoDup. }
  cbn [option_map app]. f_equal.
  apply (@dict_update_fresh _ []). simpl. apply dotted_enumerate_NoDup.
Qed.

End FlattenDictMore.

Lemma flatten_dict_idempotent_witness :
  flat_values [(KStr "a.b", PInt 1); (KStr "a.c.0", PInt 2)]
  /\ flatten_dict 1 [(KStr "a.b", PInt 1); (KStr "a.c.0", PInt 2)] None true
     = Some [(KStr "a.b", PInt 1); (KStr "a.c.0", PInt 2)].
Proof.
  apply (@flatten_dict_idempotent 3 0
           [(KStr "a", PDict [(KStr "b", PInt 1); (KStr "c", PList [PInt 2])])]
           None).
  vm_compute. reflexivity.
Defined.

Lemma flatten_dict_keys_prefixed_witness :
  Forall (fun kv => exists rest : string, fst kv = KStr ("top" ++ "." ++ rest))
         [(KStr "top.a.b", PInt 1); (KStr "top.n", PNone)].
Proof.
  apply (@flatten_dict_keys_prefixed 3
           [(KStr "a", PDict [(KStr "b", PInt 1)]); (KStr "n", PNone)]
           (KStr "top") true).
  - reflexivity.
  - vm_compute. reflexivity.
Defined.

Lemma flatten_dict_keeps_arrays_when_not_unwinding_witness :
  flatten_dict 1 [(KStr "a", PList [PInt 1; PInt 2]); (KStr "b", PStr "x")] None false
  = Some [(KStr "a", PList [PInt 1; PInt 2]); (KStr "b", PStr "x")].
Proof.
  apply flatten_dict_keeps_arrays_when_not_unwinding.
  - repeat constructor.
  - repeat constructor; simpl; intuition discriminate.
Defined.

Lemma flatten_dict_falsy_key_gives_no_prefix_witness :
  flatten_dict 2 [(KStr "", PDict [(KStr "a", PInt 1)])] None true
  = flatten_dict 1 [(KStr "a", PInt 1)] None true.
Proof.
  apply flatten_dict_falsy_key_gives_no_prefix. reflexivity.
Defined.

Lemma flatten_dict_unwinds_list_witness :
  flatten_dict 2 [(KStr "a", PList [PInt 7; PStr "x"])] None true
  = Some (map (fun kv => (KStr (key_str (KStr "a") ++ "." ++ key_str (fst kv)), snd kv))
              (enumerate [PInt 7; PStr "x"]))
  /\ flatten_dict 2 [(KStr "a", PTuple [PInt 7; PStr "x"])] None true
     = flatten_dict 2 [(KStr "a", PList [PInt 7; PStr "x"])] None true.
Proof.
  apply flatten_dict_unwinds_list.
  - reflexivity.
  - repeat constructor.
Defined.

(** ** [get_pymatgen_descriptor]: what is returned and what is raised *)

Section AttributeReaderMore.

Variable env : Env.
Variable prop : string.

Lemma pymatgen_body_number (eldata : list Q) (tups : list eldata_tup)
      (el : string) (amount q : Q) :
  element_getattr env el prop = Ok (AttrNumber q) ->
  pymatgen_body env prop (eldata, tups) (el, amount)
  = if str_mem prop unitless_props
    then Ok (eldata ++ repeat q (range_len (py_int amount)),
             tups ++ [{| element := el; propname := prop; propvalue := Some q;
                         propunit := None; amt := amount |}])
    else Raise AttributeError.
Proof.
  intros H. unfold pymatgen_body. rewrite (bind_ok _ H).
  cbn [bool_is_None py_callable attr_unit attr_float bind].
  destruct (str_mem prop unitless_props); reflexivity.
Qed.

Lemma pymatgen_loop_values (items : el_amt_dict) :
  Forall (known_for env prop) items ->
  forall (eldata : list Q) (tups : list eldata_tup),
  exists tups',
    for_each (pymatgen_body env prop) items (eldata, tups)
    = Ok (eldata ++ flat_map (per_atom_values env prop) items, tups').
Proof.
  induction 1 as [|[el amount] items Hk _ IH]; intros eldata tups.
  - exists tups. simpl. now rewrite app_nil_r.
  - cbn [for_each flat_map]. unfold known_for in Hk. cbn [fst] in Hk.
    unfold per_atom_values at 1. cbn [fst snd].
    destruct Hk as [Hnone | (q & u & Hq)].
    + rewrite (@pymatgen_body_None env prop eldata tups el amount Hnone), Hnone.
      cbn [bind app]. apply IH.
    + destruct (@pymatgen_body_quantity env prop eldata tups el amount q u Hq)
        as [units Hb].
      rewrite Hb, Hq. cbn [bind].
      destruct (IH (eldata ++ repeat q (range_len (py_int amount)))
                  (tups ++ [{| element := el; propname := prop; propvalue := Some q;
                               propunit := units; amt := amount |}]))
        as [tups' Hrun].
      exists tups'. rewrite Hrun, <- app_assoc. reflexivity.
Qed.

(** X6: when the attribute is known for every element, the per-atom list is
    the values of the elements that have data, each [int(amount)] times, in
    the order of the composition; an element without data is skipped. *)
Theorem get_pymatgen_descriptor_skips_undefined
        (comp : string) (el_amt : el_amt_dict) :
  get_el_amt_dict env comp = Ok el_amt ->
  Forall (known_for env prop) el_amt ->
  get_pymatgen_descriptor env comp prop
  = Ok (flat_map (per_atom_values env prop) el_amt).
Proof.
  intros Hparse Hknown.
  destruct (pymatgen_loop_values Hknown [] []) as [tups Hrun].
  unfold get_pymatgen_descriptor, pymatgen_run.
  rewrite (bind_ok _ Hparse), Hrun. reflexivity.
Qed.

(** Where an exception of the loop comes from. *)
Definition raised_at (e : exn) (item : string * Q) : Prop :=
  element_getattr env (fst item) prop = Raise e
  \/ (e = AttributeError /\ str_mem prop unitless_props = false
      /\ exists v, element_getattr env (fst item) prop = Ok v
                   /\ attr_unit v = Raise AttributeError)
  \/ (e = TypeError
      /\ exists v, element_getattr env (fst item) prop = Ok v
                   /\ attr_float v = Raise TypeError).

Lemma pymatgen_body_raises (st : list Q * list eldata_tup) (item : string * Q) (e : exn) :
  pymatgen_body env prop st item = Raise e -> raised_at e item.
Proof.
  destruct st as [eldata tups], item as [el amount].
  unfold pymatgen_body, raised_at. cbn [fst].
  destruct (element_getattr env el prop) as [v|e'] eqn:Hv; cbn [bind].
  - cbn [bool_is_None].
    destruct v as [|q u|q|c]; cbn [attr_unit attr_float bind]; try discriminate.
    + destruct (str_mem prop unitless_props); discriminate.
    + destruct (str_mem prop unitless_props) eqn:Hm; cbn [bind]; [discriminate|].
      intros H. injection H as <-. right. left.
      repeat split; try reflexivity. now exists (AttrNumber q).
    + destruct (str_mem prop unitless_props) eqn:Hm; cbn [bind].
      * intros H. injection H as <-. right. right.
        split; [reflexivity|]. now exists (AttrOther c).
      * intros H. injection H as <-. right. left.
        repeat split; try reflexivity. now exists (AttrOther c).
  - intros H. injection H as <-. now left.
Qed.

Lemma pymatgen_loop_raises (items : el_amt_dict) (e : exn) :
  forall st, for_each (pymatgen_body env prop) items st = Raise e ->
             exists item, In item items /\ raised_at e item.
Proof.
  induction items as [|item items IH]; intros st H; [discriminate|].
  cbn [for_each] in H.
  destruct (pymatgen_body env prop st item) as [st'|e'] eqn:Hb; cbn [bind] in H.
  - destruct (IH st' H) as (it & Hin & Hr). exists it. split; [now right | exact Hr].
  - injection H as <-. exists item. split; [now left|].
    exact (pymatgen_body_raises _ _ Hb).
Qed.

(** X7: every exception of [get_pymatgen_descriptor] is the parser's, or that
    of an attribute read, or [AttributeError] for a value without a unit
    under a name outside the unit-less list, or [TypeError] for a value that
    is not a number.  Its own [ValueError] is never raised. *)
Theorem get_pymatgen_descriptor_exceptions (comp : string) (e : exn) :
  get_pymatgen_descriptor env comp prop = Raise e ->
  (get_el_amt_dict env comp = Raise e
   \/ exists el_amt item,
       get_el_amt_dict env comp = Ok el_amt /\ In item el_amt /\ raised_at e item)
  /\ (e = ValueError ->
      get_el_amt_dict env comp = Raise ValueError
      \/ exists el, element_getattr env el prop = Raise ValueError).
Proof.
  intros H.
  assert (Hsrc : get_el_amt_dict env comp = Raise e
                 \/ exists el_amt item,
                     get_el_amt_dict env comp = Ok el_amt /\ In item el_amt
                     /\ raised_at e item).
  { unfold get_pymatgen_descriptor, pymatgen_run in H.
    destruct (get_el_amt_dict env comp) as [el_amt|e'] eqn:Hp; cbn [bind] in H.
    - right.
      destruct (for_each (pymatgen_body env prop) el_amt ([], [])) as [st|e'] eqn:Hl;
        cbn [bind] in H; [discriminate|].
      injection H as <-.
      destruct (pymatgen_loop_raises _ _ Hl) as (item & Hin & Hr).
      now exists el_amt, item.
    - injection H as <-. now left. }
  split; [exact Hsrc|].
  intros ->. destruct Hsrc as [Hp | (el_amt & item & _ & _ & Hr)]; [now left|].
  right. destruct Hr as [Hg | [(Hbad & _) | (Hbad & _)]]; try discriminate.
  now exists (fst item).
Qed.

(** X8: a plain number (an attribute value without [.unit]) is accepted under
    the names of the unit-less list and makes the call fail with
    [AttributeError] under any other name. *)
Theorem get_pymatgen_descriptor_plain_numbers
        (comp : string) (el_amt : el_amt_dict) :
  get_el_amt_dict env comp = Ok el_amt ->
  el_amt <> [] ->
  Forall (plain_number_for env prop) el_amt ->
  get_pymatgen_descriptor env comp prop
  = if str_mem prop unitless_props
    then Ok (flat_map (per_atom_values env prop) el_amt)
    else Raise AttributeError.
Proof.
  intros Hparse Hne Hall.
  unfold get_pymatgen_descriptor, pymatgen_run. rewrite (bind_ok _ Hparse).
  destruct (str_mem prop unitless_props) eqn:Hm.
  - assert (Hgen : forall eldata tups,
               exists tups',
                 for_each (pymatgen_body env prop) el_amt (eldata, tups)
                 = Ok (eldata ++ flat_map (per_atom_values env prop) el_amt, tups')).
    { clear Hparse Hne. induction Hall as [|[el amount] items (q & Hq) _ IH];
        intros eldata tups.
      - exists tups. simpl. now rewrite app_nil_r.
      - cbn [for_each flat_map]. cbn [fst] in Hq.
        rewrite (@pymatgen_body_number eldata tups el amount q Hq), Hm. cbn [bind].
        destruct (IH (eldata ++ repeat q (range_len (py_int amount)))
                    (tups ++ [{| element := el; propname := prop; propvalue := Some q;
                                 propunit := None; amt := amount |}]))
          as [tups' Hrun].
        exists tups'. rewrite Hrun, <- app_assoc.
        unfold per_atom_values at 2. cbn [fst snd]. now rewrite Hq. }
    destruct (Hgen [] []) as [tups' Hrun]. now rewrite Hrun.
  - destruct Hall as [|[el amount] items (q & Hq) _]; [congruence|].
    cbn [for_each]. cbn [fst] in Hq.
    now rewrite (@pymatgen_body_number [] [] el amount q Hq), Hm.
Qed.

End AttributeReaderMore.

Lemma get_pymatgen_descriptor_skips_undefined_witness :
  get_pymatgen_descriptor Fixture.demo_env "Fe2O3"
    "coefficient_of_linear_thermal_expansion"
  = Ok (flat_map (per_atom_values Fixture.demo_env
                    "coefficient_of_linear_thermal_expansion")
          [("Fe"%string, 2%Q); ("O"%string, 3%Q)]).
Proof.
  apply get_pymatgen_descriptor_skips_undefined.
  - reflexivity.
  - constructor; [|constructor; [|constructor]].
    + right. exists (118 # 10000000)%Q, "K^-1"%string. reflexivity.
    + left. reflexivity.
Defined.

Lemma get_pymatgen_descriptor_exceptions_witness :
  (get_el_amt_dict Fixture.demo_env "Fe2O3" = Raise AttributeError
   \/ exists el_amt item,
       get_el_amt_dict Fixture.demo_env "Fe2O3" = Ok el_amt /\ In item el_amt
       /\ raised_at Fixture.demo_env "bogus" AttributeError item)
  /\ (AttributeError = ValueError ->
      get_el_amt_dict Fixture.demo_env "Fe2O3" = Raise ValueError
      \/ exists el, element_getattr Fixture.demo_env el "bogus" = Raise ValueError).
Proof.
  apply get_pymatgen_descriptor_exceptions. reflexivity.
Defined.

Lemma get_pymatgen_descriptor_plain_numbers_witness :
  get_pymatgen_descriptor Fixture.demo_env "Fe2O3" "X"
  = if str_mem "X" unitless_props
    then Ok (flat_map (per_atom_values Fixture.demo_env "X")
               [("Fe"%string, 2%Q); ("O"%string, 3%Q)])
    else Raise AttributeError.
Proof.
  apply get_pymatgen_descriptor_plain_numbers.
  - reflexivity.
  - discriminate.
  - constructor; [|constructor; [|constructor]].
    + exists (183 # 100)%Q. reflexivity.
    + exists (344 # 100)%Q. reflexivity.
Defined.

(** ** [get_magpie_descriptor]: the catalogue and small amounts *)

Section PerAtomExpansionMore.

Variable env : Env.





End PerAtomExpansionMore.

Section SmallAmountsAndFiles.

Variable env : Env.




Lemma str_in_cons_false (sub : string) (c : ascii) (rest : string) :
  str_in sub (String c rest) = false ->
  String.prefix sub (String c rest) = false /\ str_in sub rest = false.
Proof. cbn [str_in]. intros H. now apply orb_false_iff in H. Qed.

Lemma str_replace_aux_absent (fuel : nat) (old new s : string) :
  str_in old s = false -> str_replace_aux fuel old new s = s.
Proof.
  revert s. induction fuel as [|fuel' IH]; intros s H; [reflexivity|].
  destruct s as [|c rest]; [reflexivity|].
  apply str_in_cons_false in H. destruct H as [Hp Hr].
  cbn [str_replace_aux]. rewrite Hp. now rewrite (IH rest Hr).
Qed.

Lemma str_replace_absent (old new s : string) :
  str_in old s = false -> str_replace old new s = s.
Proof.
  intros H. unfold str_replace. destruct old; [reflexivity|].
  now apply str_replace_aux_absent.
Qed.

(** X11: every file of the data directory whose name does not contain
    [".table"], the README for one, is in the catalogue under its full
    name.  Asked for as a descriptor it passes the check, and the call then
    fails on opening a table that does not exist. *)
Theorem non_table_file_is_catalogued
        (comp name : string) (el_amt : el_amt_dict) (readme : list string)
        (unit : option string) (e : exn) :
  In name (listdir env) ->
  str_in ".table" name = false ->
  str_mem name (available_props env) = true
  /\ (get_el_amt_dict env comp = Ok el_amt ->
      readlines env "README.txt" = Ok readme ->
      for_each (readme_body name readme) (enumerate1 readme) None = Ok unit ->
      readlines env (name ++ ".table") = Raise e ->
      get_magpie_descriptor env comp name = Raise e).
Proof.
  intros Hin Habs.
  assert (Hcat : str_mem name (available_props env) = true).
  { unfold str_mem, available_props. apply existsb_exists.
    exists name. split; [|apply String.eqb_refl].
    apply in_map_iff. exists name. split; [|exact Hin].
    now apply str_replace_absent. }
  split; [exact Hcat|].
  intros Hparse Hreadme Hscan Htable.
  unfold get_magpie_descriptor, magpie_run. rewrite Hcat. cbn [negb].
  rewrite (bind_ok _ Hparse), (bind_ok _ Hreadme), (bind_ok _ Hscan).
  now rewrite (bind_raise _ Htable).
Qed.

End SmallAmountsAndFiles.


Lemma non_table_file_is_catalogued_witness :
  str_mem "README.txt" (available_props Fixture.demo_env) = true
  /\ get_magpie_descriptor Fixture.demo_env "NaCl" "README.txt" = Raise IOError.
Proof.
  destruct (@non_table_file_is_catalogued Fixture.demo_env "NaCl" "README.txt"
              [("Na"%string, 1%Q); ("Cl"%string, 1%Q)] Fixture.readme_lines
              None IOError) as [Hcat Hfail].
  - vm_compute. tauto.
  - vm_compute. reflexivity.
  - split; [exact Hcat|]. apply Hfail.
    + reflexivity.
    + reflexivity.
    + vm_compute. reflexivity.
    + vm_compute. reflexivity.
Defined.


(** ** [get_holder_mean]: edge cases *)

Section HolderMeanMore.

Local Open Scope R_scope.

(** X12: on the empty list the geometric branch fails in [reduce] with
    [TypeError] and the power branch divides by the length 0. *)
Theorem get_holder_mean_empty (p : R) :
  get_holder_mean [] 0 = Raise TypeError
  /\ (p <> 0 -> get_holder_mean [] p = Raise ZeroDivisionError).
Proof.
  split.
  - unfold get_holder_mean. destruct (Req_dec_T 0 0) as [_ | Hn]; [reflexivity | now elim Hn].
  - intros Hp. unfold get_holder_mean.
    destruct (Req_dec_T p 0) as [Hz | _]; [contradiction|].
    cbn [for_each bind List.length INR]. unfold py_fdiv.
    destruct (Req_dec_T 0 0) as [_ | Hn]; [reflexivity | now elim Hn].
Qed.

Lemma spec_sum_map_ext (f g : R -> R) (l : list R) :
  Forall (fun x => f x = g x) l -> spec_sum (map f l) = spec_sum (map g l).
Proof. induction 1 as [|x l Hx _ IH]; simpl; [reflexivity | now rewrite Hx, IH]. Qed.

(** X13: with power 1 the Holder mean is the arithmetic mean. *)
Theorem get_holder_mean_power_one (v : list R) :
  v <> [] -> Forall (Rlt 0) v ->
  get_holder_mean v 1 = Ok (spec_sum v / INR (List.length v)).
Proof.
  intros Hne Hpos. rewrite (holder_power Hne Hpos) by lra. f_equal.
  unfold spec_power_mean.
  assert (Hs : spec_sum (map (fun x => Rpower x 1) v) = spec_sum (map (fun x => x) v)).
  { apply spec_sum_map_ext. revert Hpos. apply Forall_impl.
    intros x Hx. now apply Rpower_1. }
  rewrite Hs, map_id.
  replace (1 / 1) with 1 by lra. apply Rpower_1.
  apply Rdiv_lt_0_compat; [|now apply INR_length_pos].
  now apply spec_sum_pos.
Qed.

End HolderMeanMore.

Section HolderMeanZero.

Local Open Scope R_scope.




End HolderMeanZero.

Lemma get_holder_mean_empty_witness :
  get_holder_mean [] 0%R = Raise TypeError
  /\ get_holder_mean [] 2%R = Raise ZeroDivisionError.
Proof.
  destruct (get_holder_mean_empty 2%R) as [H0 Hp].
  split; [exact H0 | apply Hp; lra].
Defined.

Lemma get_holder_mean_power_one_witness :
  get_holder_mean [1; 2; 3; 4]%R 1%R
  = Ok (spec_sum [1; 2; 3; 4]%R / INR (List.length [1; 2; 3; 4]%R))%R.
Proof.
  apply get_holder_mean_power_one.
  - discriminate.
  - repeat constructor; lra.
Defined.


(** ** [get_stoich_attributes]: one element, and scaling *)

Section StoichiometryMore.

Variable env : Env.

Lemma Rpower_one_base (p : R) : Rpower 1 p = 1%R.
Proof. unfold Rpower. rewrite ln_1, Rmult_0_r. apply exp_0. Qed.

(** X19: a composition of one element has the p-norm 1 for every [p <> 0]. *)
Theorem get_stoich_attributes_single_element
        (comp el : string) (amount : Q) (p : R) :
  get_el_amt_dict env comp = Ok [(el, amount)] ->
  (0 < amount)%Q -> p <> 0%R ->
  get_stoich_attributes env comp p = Ok 1%R.
Proof.
  intros Hparse Ha Hp.
  rewrite (@stoich_power env comp [(el, amount)] p Hparse); try exact Hp.
  - f_equal. unfold spec_p_norm. cbn [map spec_sum fold_right snd].
    assert (Hf : spec_fraction [(el, amount)] amount = 1%R).
    { unfold spec_fraction. cbn [spec_total_atom_count fold_right snd].
      rewrite <- RMicromega.Q2R_1. apply Qeq_eqR. field.
      intros E. assert (Hz : (amount == 0)%Q) by (rewrite <- E; ring).
      rewrite Hz in Ha. now apply Qlt_irrefl in Ha. }
    rewrite Hf, Rpower_one_base, Rplus_0_r. apply Rpower_one_base.
  - discriminate.
  - repeat constructor. exact Ha.
Qed.

Lemma spec_total_scale (k : Q) (el_amt : el_amt_dict) :
  (spec_total_atom_count (scale_amounts k el_amt)
   == k * spec_total_atom_count el_amt)%Q.
Proof.
  induction el_amt as [|[el a] items IH]; simpl.
  - ring.
  - unfold scale_amounts in IH. rewrite IH. ring.
Qed.

Lemma positive_scale (k : Q) (el_amt : el_amt_dict) :
  (0 < k)%Q -> positive_amounts el_amt -> positive_amounts (scale_amounts k el_amt).
Proof.
  intros Hk Hpos. unfold positive_amounts, scale_amounts.
  apply Forall_map. revert Hpos. apply Forall_impl.
  intros [el a] Ha. cbn [snd] in *.
  rewrite <- (Qmult_0_r k). now apply Qmult_lt_l.
Qed.

(** X20: only the proportions count: multiplying every amount by [k > 0]
    leaves the p-norm unchanged for [p <> 0], while the result for p = 0,
    the atom count, is multiplied by [k]. *)
Theorem get_stoich_attributes_scaling
        (comp comp' : string) (el_amt : el_amt_dict) (k : Q) (p : R) :
  get_el_amt_dict env comp = Ok el_amt ->
  get_el_amt_dict env comp' = Ok (scale_amounts k el_amt) ->
  (0 < k)%Q -> el_amt <> [] -> positive_amounts el_amt ->
  (p <> 0%R -> get_stoich_attributes env comp' p = get_stoich_attributes env comp p)
  /\ exists n, get_stoich_attributes env comp 0 = Ok n
               /\ get_stoich_attributes env comp' 0 = Ok (Q2R k * n)%R.
Proof.
  intros Hparse Hparse' Hk Hne Hpos.
  pose proof (spec_total_pos Hne Hpos) as Hn.
  assert (Hne' : scale_amounts k el_amt <> [])
    by (destruct el_amt; [congruence | discriminate]).
  pose proof (positive_scale Hk Hpos) as Hpos'.
  split.
  - intros Hp.
    rewrite (@stoich_power env comp' _ p Hparse' Hne' Hpos' Hp).
    rewrite (@stoich_power env comp _ p Hparse Hne Hpos Hp).
    f_equal. unfold spec_p_norm. f_equal.
    unfold scale_amounts at 2. rewrite map_map. cbn [snd].
    f_equal. apply map_ext. intros [el a]. cbn [snd]. f_equal.
    unfold spec_fraction. apply Qeq_eqR. rewrite spec_total_scale.
    field. split.
    + intros E. rewrite E in Hn. now apply Qlt_irrefl in Hn.
    + intros E. rewrite E in Hk. now apply Qlt_irrefl in Hk.
  - exists (Q2R (n_atoms el_amt)). split; [now apply stoich_zero|].
    rewrite (@stoich_zero env comp' _ Hparse'). f_equal.
    rewrite <- Q2R_mult. apply Qeq_eqR.
    rewrite !n_atoms_total. apply spec_total_scale.
Qed.

End StoichiometryMore.

Lemma get_stoich_attributes_single_element_witness :
  get_stoich_attributes Fixture.demo_env "Fe" 3%R = Ok 1%R.
Proof.
  apply (@get_stoich_attributes_single_element Fixture.demo_env "Fe" "Fe" 1%Q).
  - reflexivity.
  - reflexivity.
  - lra.
Defined.

Lemma get_stoich_attributes_scaling_witness :
  (3%R <> 0%R ->
   get_stoich_attributes more_env "Fe4O6" 3 = get_stoich_attributes more_env "Fe2O3" 3)
  /\ exists n, get_stoich_attributes more_env "Fe2O3" 0 = Ok n
               /\ get_stoich_attributes more_env "Fe4O6" 0 = Ok (Q2R 2 * n)%R.
Proof.
  apply (@get_stoich_attributes_scaling more_env "Fe2O3" "Fe4O6"
           [("Fe"%string, 2%Q); ("O"%string, 3%Q)] 2%Q 3%R).
  - reflexivity.
  - reflexivity.
  - reflexivity.
  - discriminate.
  - repeat constructor.
Defined.

(** ** [get_ionic_attributes]: a binary compound *)

Section IonicMore.

Local Open Scope R_scope.

Lemma ionic_bounds (d : R) : 0 <= ionic d < 1.
Proof.
  unfold ionic.
  assert (Hx : - (1 / 4) * (d * d) <= 0) by nra.
  pose proof (exp_pos (- (1 / 4) * (d * d))) as Hpos.
  assert (Hle : exp (- (1 / 4) * (d * d)) <= 1).
  { destruct Hx as [Hlt | Heq].
    - left. apply Rlt_le_trans with (exp 0);
        [now apply exp_increasing | rewrite exp_0; lra].
    - rewrite Heq, exp_0. lra. }
  lra.
Qed.

Lemma ionic_sym (a b : R) : ionic (a - b) = ionic (b - a).
Proof.
  unfold ionic. replace ((b - a) * (b - a)) with ((a - b) * (a - b)) by ring.
  reflexivity.
Qed.

Variable env : Env.

(** X22: for a compound of two elements with one electronegativity each, the
    maximum is the ionic character of the pair, [1 - exp(-(XA - XB)^2 / 4)],
    and the average is that number times the two atomic fractions; the
    ionic character is at least 0, below 1, and the same for both orders
    of the pair. *)
Theorem get_ionic_attributes_binary
        (comp a b : string) (na nb xa xb fa fb : Q) :
  get_el_amt_dict env comp = Ok [(a, na); (b, nb)] ->
  get_magpie_descriptor env a "Electronegativity" = Ok [xa] ->
  get_magpie_descriptor env b "Electronegativity" = Ok [xb] ->
  get_atomic_fraction [(a, na); (b, nb)] na = Ok fa ->
  get_atomic_fraction [(a, na); (b, nb)] nb = Ok fb ->
  get_ionic_attributes env comp
  = Ok (ionic (Q2R xa - Q2R xb), Q2R fa * Q2R fb * ionic (Q2R xa - Q2R xb))
  /\ 0 <= ionic (Q2R xa - Q2R xb) < 1
  /\ ionic (Q2R xa - Q2R xb) = ionic (Q2R xb - Q2R xa).
Proof.
  intros Hparse HA HB Hfa Hfb. split; [|split].
  - unfold get_ionic_attributes. rewrite (bind_ok _ Hparse).
    cbn [combinations2 map app for_each]. unfold ionic_body.
    cbn [fst snd]. rewrite (bind_ok _ HA), (bind_ok _ HB).
    cbn [np_array map np_broadcast List.length Nat.eqb combine bind fst snd].
    rewrite (bind_ok _ Hfa), (bind_ok _ Hfb).
    cbn [number_add map bind app np_max List.concat fold_left number_first].
    unfold py_index. cbn. do 2 f_equal. lra.
  - apply ionic_bounds.
  - apply ionic_sym.
Qed.

End IonicMore.

Lemma get_ionic_attributes_binary_witness :
  get_ionic_attributes Fixture.demo_env "Fe2O3"
  = Ok (ionic (Q2R 2 - Q2R 0), Q2R (2 # 5) * Q2R (3 # 5) * ionic (Q2R 2 - Q2R 0))%R
  /\ (0 <= ionic (Q2R 2 - Q2R 0) < 1)%R
  /\ ionic (Q2R 2 - Q2R 0) = ionic (Q2R 0 - Q2R 2).
Proof.
  apply (@get_ionic_attributes_binary Fixture.demo_env "Fe2O3" "Fe" "O" 2%Q 3%Q).
  - reflexivity.
  - vm_compute. reflexivity.
  - vm_compute. reflexivity.
  - vm_compute. reflexivity.
  - vm_compute. reflexivity.
Defined.

(** ** [get_elem_property_attributes]: the summary statistics *)

Section SummaryStats.

Lemma Qlt_bool_true (a b : Q) : Qlt_bool a b = true -> (a < b)%Q.
Proof.
  unfold Qlt_bool. intros H. apply negb_true_iff in H.
  apply Qnot_le_lt. intros Hle. apply Qle_bool_iff in Hle. congruence.
Qed.

Lemma Qlt_bool_false (a b : Q) : Qlt_bool a b = false -> (b <= a)%Q.
Proof.
  unfold Qlt_bool. intros H. apply negb_false_iff in H. now apply Qle_bool_iff.
Qed.

Lemma best_from_in {A : Type} (better : A -> A -> bool) (l : list A) :
  forall b, In (best_from better b l) (b :: l).
Proof.
  induction l as [|x l IH]; intros b; cbn [best_from]; [now left|].
  destruct (IH (if better x b then x else b)) as [H | H].
  - destruct (better x b); [right; left | left]; exact H.
  - right. now right.
Qed.

Lemma best_from_min (l : list Q) :
  forall b, (best_from Qlt_bool b l <= b)%Q
            /\ forall x, In x l -> (best_from Qlt_bool b l <= x)%Q.
Proof.
  induction l as [|y l IH]; intros b; cbn [best_from].
  - split; [apply Qle_refl | intros x []].
  - destruct (IH (if Qlt_bool y b then y else b)) as [Hb Hl].
    destruct (Qlt_bool y b) eqn:E.
    + apply Qlt_bool_true in E. split; [Lqa.lra|].
      intros x [<- | Hx]; [exact Hb | now apply Hl].
    + apply Qlt_bool_false in E. split; [exact Hb|].
      intros x [<- | Hx]; [Lqa.lra | now apply Hl].
Qed.

Lemma best_from_max (l : list Q) :
  forall b, (b <= best_from (fun x b' => Qlt_bool b' x) b l)%Q
            /\ forall x, In x l -> (x <= best_from (fun x b' => Qlt_bool b' x) b l)%Q.
Proof.
  induction l as [|y l IH]; intros b; cbn [best_from].
  - split; [apply Qle_refl | intros x []].
  - destruct (IH (if Qlt_bool b y then y else b)) as [Hb Hl].
    destruct (Qlt_bool b y) eqn:E.
    + apply Qlt_bool_true in E. split; [Lqa.lra|].
      intros x [<- | Hx]; [exact Hb | now apply Hl].
    + apply Qlt_bool_false in E. split; [exact Hb|].
      intros x [<- | Hx]; [Lqa.lra | now apply Hl].
Qed.

Variable env : Env.

(** What [summary_stats] returns for a list: the minimum and the maximum
    are values of the list that bound every value, and the range is not
    negative. *)
Lemma summary_stats_row (data_lst : list Q) (st : desc_stats) :
  summary_stats env data_lst = Ok st -> extremes_of data_lst st.
Proof.
  unfold summary_stats, py_min, py_max, py_best. intros H.
  destruct data_lst as [|b l]; [discriminate|]. cbn [bind] in H.
  destruct (mode env (b :: l)) as [m|e]; cbn [bind] in H; [|discriminate].
  injection H as <-. unfold extremes_of. cbn [s_min s_max s_range].
  assert (Hbounds : forall x, In x (b :: l) ->
                      (best_from Qlt_bool b l <= x
                       /\ x <= best_from (fun x b' => Qlt_bool b' x) b l)%Q).
  { intros x Hx.
    destruct (best_from_min l b) as [Hb Hl].
    destruct (best_from_max l b) as [Hb' Hl'].
    destruct Hx as [<- | Hx]; split; auto. }
  split; [|split; [|split]].
  - apply best_from_in.
  - apply best_from_in.
  - exact Hbounds.
  - assert (Hin : In (best_from Qlt_bool b l) (b :: l)) by apply best_from_in.
    destruct (Hbounds _ Hin) as [_ Hle]. Lqa.lra.
Qed.

(** X23: on a non-empty list (the set built from it having an item), the row
    of statistics is returned; its minimum and maximum are values of the
    list that bound every value, and the range is not negative. *)
Theorem summary_stats_extremes (data_lst : list Q) :
  data_lst <> [] -> set_iter env data_lst <> [] ->
  exists st,
    summary_stats env data_lst = Ok st
    /\ In (s_min st) data_lst /\ In (s_max st) data_lst
    /\ (forall x, In x data_lst -> s_min st <= x /\ x <= s_max st)%Q
    /\ (0 <= s_range st)%Q.
Proof.
  intros Hne Hset.
  destruct (summary_stats env data_lst) as [st|e] eqn:E.
  - exists st. split; [reflexivity|]. exact (summary_stats_row _ E).
  - exfalso. revert E. unfold summary_stats, py_min, py_max, mode, py_max_key, py_best.
    destruct data_lst as [|b l]; [congruence|].
    destruct (set_iter env (b :: l)) as [|c rest]; [congruence|].
    discriminate.
Qed.

(** The rows follow the properties, one row for each. *)
Lemma elem_property_loop (comp : string) (descs : list string) :
  forall acc rows,
    for_each (elem_property_body env comp) descs acc = Ok rows ->
    exists more,
      rows = acc ++ more /\ Forall2 (row_for env comp) descs more.
Proof.
  induction descs as [|desc descs IH]; intros acc rows H; cbn [for_each] in H.
  - injection H as <-. exists []. split; [now rewrite app_nil_r | constructor].
  - unfold elem_property_body at 1 in H.
    destruct (get_magpie_descriptor env comp desc) as [data|e] eqn:Hdata;
      cbn [bind] in H; [|discriminate].
    destruct (summary_stats env data) as [row|e] eqn:Hrow; cbn [bind] in H;
      [|discriminate].
    destruct (IH _ _ H) as (more & -> & Hmore).
    exists (row :: more). split; [now rewrite <- app_assoc|].
    constructor; [|exact Hmore].
    exists data. split; [exact Hdata|]. split; [exact Hrow|].
    exact (summary_stats_row _ Hrow).
Qed.

(** X24: whenever [get_elem_property_attributes] returns, its table has one
    row for each of the 22 properties, in their order; each row holds the
    statistics of the per-atom values of its property, with a minimum and
    a maximum that are values of that list and bound it, and a range that
    is not negative. *)
Theorem get_elem_property_attributes_rows (comp : string) (rows : list desc_stats) :
  get_elem_property_attributes env comp = Ok rows ->
  List.length rows = 22%nat /\ Forall2 (row_for env comp) magpie_desc rows.
Proof.
  intros H. unfold get_elem_property_attributes in H.
  destruct (elem_property_loop _ _ _ H) as (more & -> & Hrows).
  cbn [app]. split; [|exact Hrows].
  now rewrite <- (Forall2_length Hrows).
Qed.

Lemma Qlt_bool_irrefl (x : Q) : Qlt_bool x x = false.
Proof.
  unfold Qlt_bool. apply negb_false_iff. apply Qle_bool_iff. apply Qle_refl.
Qed.

Lemma best_from_repeat {A : Type} (better : A -> A -> bool) (x : A) (n : nat) :
  better x x = false -> best_from better x (repeat x n) = x.
Proof.
  intros H. induction n as [|n IH]; cbn [repeat best_from]; [reflexivity|].
  now rewrite H.
Qed.

(** X25: when all the values are equal, as for a composition of one element,
    minimum, maximum and mode are that value and the range is zero. *)
Theorem summary_stats_constant_values (x : Q) (n : nat) :
  set_iter env (repeat x (S n)) <> [] ->
  (forall y, In y (set_iter env (repeat x (S n))) -> In y (repeat x (S n))) ->
  exists st,
    summary_stats env (repeat x (S n)) = Ok st
    /\ s_min st = x /\ s_max st = x /\ s_mode st = x
    /\ (s_range st == 0)%Q.
Proof.
  intros Hset Hsub.
  destruct (set_iter env (repeat x (S n))) as [|c rest] eqn:Hs; [congruence|].
  set (m := best_from (fun a b' => Nat.ltb (count (repeat x (S n)) b')
                                           (count (repeat x (S n)) a)) c rest).
  assert (Hm : m = x).
  { assert (Hin : In m (c :: rest)) by apply best_from_in.
    apply Hsub in Hin. now apply repeat_spec in Hin. }
  exists {| s_min := x; s_max := x; s_range := (x - x)%Q;
            s_mean := np_mean env (repeat x (S n));
            s_std := np_std env (repeat x (S n));
            s_mode := x |}.
  cbn [s_min s_max s_range s_mode].
  split; [|split; [|split; [|split]]]; try reflexivity; try ring.
  unfold summary_stats, py_min, py_max, mode, py_max_key, py_best.
  rewrite Hs. cbn [repeat bind].
  rewrite !best_from_repeat by apply Qlt_bool_irrefl.
  do 2 f_equal. exact Hm.
Qed.

End SummaryStats.

Lemma summary_stats_extremes_witness :
  exists st,
    summary_stats Fixture.demo_env [26; 26; 8; 8; 8]%Q = Ok st
    /\ In (s_min st) [26; 26; 8; 8; 8]%Q /\ In (s_max st) [26; 26; 8; 8; 8]%Q
    /\ (forall x, In x [26; 26; 8; 8; 8]%Q -> s_min st <= x /\ x <= s_max st)%Q
    /\ (0 <= s_range st)%Q.
Proof.
  apply summary_stats_extremes.
  - discriminate.
  - vm_compute. discriminate.
Defined.

Lemma summary_stats_constant_values_witness :
  exists st,
    summary_stats Fixture.demo_env (repeat 26%Q 2) = Ok st
    /\ s_min st = 26%Q /\ s_max st = 26%Q /\ s_mode st = 26%Q
    /\ (s_range st == 0)%Q.
Proof.
  apply (@summary_stats_constant_values Fixture.demo_env 26%Q 1).
  - vm_compute. discriminate.
  - intros y Hy. vm_compute in Hy. destruct Hy as [<- | []]. now left.
Defined.

Lemma get_elem_property_attributes_rows_witness :
  exists rows,
    get_elem_property_attributes full_env "Fe2O3" = Ok rows
    /\ List.length rows = 22%nat
    /\ Forall2 (row_for full_env "Fe2O3") magpie_desc rows.
Proof.
  destruct (get_elem_property_attributes full_env "Fe2O3") as [rows|e] eqn:E.
  - exists rows. split; [reflexivity|].
    exact (get_elem_property_attributes_rows full_env "Fe2O3" E).
  - exfalso. revert E. cbv -[Fixture.exact_std]. discriminate.
Defined.

(** ** [get_cohesive_energy] *)

Section CohesiveEnergy.

Variable env : EnergyEnv.

(** The head of the sorted list is the first entry of the smallest key:
    the keys before it in the input are larger, the keys after it are not
    smaller. *)
Lemma py_sorted_head {A : Type} (key : A -> Q) (l : list A) :
  l <> [] ->
  exists m tl pre post,
    py_sorted key l = m :: tl
    /\ l = pre ++ m :: post
    /\ (forall x, In x pre -> key m < key x)%Q
    /\ (forall x, In x post -> key m <= key x)%Q.
Proof.
  induction l as [|a l IH]; intros Hne; [congruence|].
  destruct l as [|b l'].
  - exists a, [], [], []. cbn. repeat split; intros x [].
  - destruct IH as (m & tl & pre & post & Hs & Hl & Hpre & Hpost); [discriminate|].
    change (py_sorted key (a :: b :: l'))
      with (insert_sorted key a (py_sorted key (b :: l'))).
    rewrite Hs. cbn [insert_sorted].
    destruct (Qle_bool (key a) (key m)) eqn:E.
    + apply Qle_bool_iff in E.
      exists a, (m :: tl), [], (b :: l').
      split; [reflexivity|]. split; [reflexivity|]. split; [intros x []|].
      intros x Hx. rewrite Hl in Hx. apply in_app_or in Hx.
      destruct Hx as [Hx | [<- | Hx]].
      * specialize (Hpre x Hx). Lqa.lra.
      * exact E.
      * specialize (Hpost x Hx). Lqa.lra.
    + assert (Hlt : (key m < key a)%Q).
      { apply Qnot_le_lt. intros Hle. apply Qle_bool_iff in Hle. congruence. }
      exists m, (insert_sorted key a tl), (a :: pre), post.
      split; [reflexivity|]. split; [now rewrite Hl|]. split; [|exact Hpost].
      intros x [<- | Hx]; [exact Hlt | now apply Hpre].
Qed.

Lemma cohesive_loop (ce : string -> Q) (items : el_amt_dict) :
  Forall (fun item => ce_lookup env (fst item) = EOk (ce (fst item))) items ->
  forall acc : Q,
    exists r, efor_each (cohesive_body env) items acc = EOk r
              /\ (r == acc - weighted_ce ce items)%Q.
Proof.
  unfold weighted_ce.
  induction 1 as [|[el a] items Hce _ IH]; intros acc.
  - exists acc. split; [reflexivity | simpl; ring].
  - cbn [efor_each]. unfold cohesive_body at 1. cbn [fst snd] in *.
    rewrite Hce. cbn [ebind].
    destruct (IH (acc - a * ce el)%Q) as (r & Hr & Hval).
    exists r. split; [exact Hr|].
    rewrite Hval. cbn [fold_left fst snd].
    assert (Hshift : forall l s,
               (fold_left (fun s item => s + snd item * ce (fst item)) l s
                == s + fold_left (fun s item => s + snd item * ce (fst item)) l 0)%Q).
    { induction l as [|it l IHl]; intros s; cbn [fold_left]; [ring|].
      rewrite (IHl (s + snd it * ce (fst it))%Q), (IHl (0 + snd it * ce (fst it))%Q).
      ring. }
    rewrite (Hshift items (0 + a * ce el)%Q). ring.
Qed.

(** X26: when the database has entries and every element has a reference
    energy, the cohesive energy is the formation energy of the first entry
    of the lowest energy per atom, minus the amounts times the reference
    energies. *)
Theorem get_cohesive_energy_value
        (comp : string) (el_amt : el_amt_dict) (struct_lst : list mp_entry)
        (ce : string -> Q) :
  get_el_amt_dict (base env) comp = Ok el_amt ->
  mp_get_data env comp = Ok struct_lst ->
  struct_lst <> [] ->
  Forall (fun item => ce_lookup env (fst item) = EOk (ce (fst item))) el_amt ->
  exists (r : Q) (m : mp_entry) (pre post : list mp_entry),
    get_cohesive_energy env comp = EOk r
    /\ struct_lst = pre ++ m :: post
    /\ (forall x, In x pre -> energy_per_atom m < energy_per_atom x)%Q
    /\ (forall x, In x post -> energy_per_atom m <= energy_per_atom x)%Q
    /\ (r == formation_energy_per_atom m - weighted_ce ce el_amt)%Q.
Proof.
  intros Hparse Hmp Hne Hce.
  destruct (py_sorted_head energy_per_atom Hne)
    as (m & tl & pre & post & Hs & Hl & Hpre & Hpost).
  destruct (cohesive_loop ce Hce (formation_energy_per_atom m)) as (r & Hr & Hval).
  exists r, m, pre, post. split; [|repeat split; assumption].
  unfold get_cohesive_energy. rewrite Hparse, Hmp. cbn [lift ebind].
  destruct struct_lst as [|e0 rest]; [congruence|].
  cbn [List.length Nat.ltb Nat.leb]. rewrite Hs.
  unfold py_index. cbn. exact Hr.
Qed.

Lemma cohesive_loop_missing (ce : string -> Q) (pre post : el_amt_dict)
      (el : string) (a : Q) :
  Forall (fun item => ce_lookup env (fst item) = EOk (ce (fst item))) pre ->
  ce_lookup env el = EKeyError el ->
  forall acc : Q,
    efor_each (cohesive_body env) (pre ++ (el, a) :: post) acc = EKeyError el.
Proof.
  intros Hpre Hmiss. induction Hpre as [|[el' a'] pre Hce _ IH]; intros acc.
  - cbn [app efor_each]. unfold cohesive_body at 1. cbn [fst].
    now rewrite Hmiss.
  - cbn [app efor_each]. unfold cohesive_body at 1. cbn [fst snd] in *.
    rewrite Hce. cbn [ebind]. apply IH.
Qed.

Lemma ce_lookup_missing (el : string) :
  ~ In el (map fst (ce_data env)) -> ce_lookup env el = EKeyError el.
Proof.
  intros Hnot. unfold ce_lookup.
  destruct (find (fun kv => String.eqb (fst kv) el) (ce_data env)) as [kv|] eqn:E;
    [|reflexivity].
  apply find_some in E. destruct E as [Hin Heq].
  apply String.eqb_eq in Heq. exfalso. apply Hnot.
  apply in_map_iff. now exists kv.
Qed.

(** X27: failures: an empty answer of the database gives [ValueError]; with
    entries found, the first element of the composition that has no
    reference energy gives [KeyError] for that element. *)
Theorem get_cohesive_energy_failures
        (comp : string) (el_amt : el_amt_dict) (struct_lst : list mp_entry) :
  get_el_amt_dict (base env) comp = Ok el_amt ->
  mp_get_data env comp = Ok struct_lst ->
  (struct_lst = [] -> get_cohesive_energy env comp = ERaise ValueError)
  /\ (struct_lst <> [] ->
      forall pre post el a,
        el_amt = pre ++ (el, a) :: post ->
        Forall (fun item => In (fst item) (map fst (ce_data env))) pre ->
        ~ In el (map fst (ce_data env)) ->
        get_cohesive_energy env comp = EKeyError el).
Proof.
  intros Hparse Hmp. split.
  - intros ->. unfold get_cohesive_energy. rewrite Hparse, Hmp. reflexivity.
  - intros Hne pre post el a Hsplit Hpre Hmiss.
    destruct (py_sorted_head energy_per_atom Hne)
      as (m & tl & _ & _ & Hs & _ & _ & _).
    unfold get_cohesive_energy. rewrite Hparse, Hmp. cbn [lift ebind].
    destruct struct_lst as [|e0 rest]; [congruence|].
    cbn [List.length Nat.ltb Nat.leb]. rewrite Hs.
    unfold py_index. cbn. rewrite Hsplit.
    set (ce := fun k => match find (fun kv => String.eqb (fst kv) k) (ce_data env) with
                        | Some kv => snd kv
                        | None => 0%Q
                        end).
    apply (@cohesive_loop_missing ce).
    + revert Hpre. apply Forall_impl. intros [k v] Hin. cbn [fst] in *.
      unfold ce_lookup, ce.
      destruct (find (fun kv => String.eqb (fst kv) k) (ce_data env)) as [kv|] eqn:E;
        [reflexivity|].
      exfalso. apply in_map_iff in Hin. destruct Hin as (kv & Hk & Hin).
      apply (find_none _ _ E) in Hin. rewrite Hk, String.eqb_refl in Hin.
      discriminate.
    + now apply ce_lookup_missing.
Qed.

End CohesiveEnergy.

Lemma get_cohesive_energy_value_witness :
  exists (r : Q) (m : mp_entry) (pre post : list mp_entry),
    get_cohesive_energy demo_energy_env "NaCl" = EOk r
    /\ [{| energy_per_atom := (-3) # 1; formation_energy_per_atom := (-2) # 1 |};
        {| energy_per_atom := (-7) # 2; formation_energy_per_atom := (-21) # 10 |};
        {| energy_per_atom := (-7) # 2; formation_energy_per_atom := (-5) # 2 |}]
       = pre ++ m :: post
    /\ (forall x, In x pre -> energy_per_atom m < energy_per_atom x)%Q
    /\ (forall x, In x post -> energy_per_atom m <= energy_per_atom x)%Q
    /\ (r == formation_energy_per_atom m
             - weighted_ce (fun el => if String.eqb el "Na" then 111 # 100 else 140 # 100)
                 [("Na"%string, 1%Q); ("Cl"%string, 1%Q)])%Q.
Proof.
  apply (@get_cohesive_energy_value demo_energy_env "NaCl").
  - reflexivity.
  - reflexivity.
  - discriminate.
  - constructor; [|constructor; [|constructor]]; reflexivity.
Defined.

Lemma get_cohesive_energy_failures_witness :
  get_cohesive_energy demo_energy_env "He" = ERaise ValueError
  /\ get_cohesive_energy demo_energy_env "Fe2O3" = EKeyError "O".
Proof.
  split.
  - apply (proj1 (@get_cohesive_energy_failures demo_energy_env "He"
                    [("He"%string, 1%Q)] [] eq_refl eq_refl)).
    reflexivity.
  - apply (proj2 (@get_cohesive_energy_failures demo_energy_env "Fe2O3"
                    [("Fe"%string, 2%Q); ("O"%string, 3%Q)]
                    [{| energy_per_atom := (-6) # 1;
                        formation_energy_per_atom := (-17) # 10 |}]
                    eq_refl eq_refl))
      with (pre := [("Fe"%string, 2%Q)]) (post := []) (a := 3%Q).
    + discriminate.
    + reflexivity.
    + constructor; [|constructor]. simpl. tauto.
    + simpl. intros [H | [H | [H | []]]]; discriminate H.
Defined.

(** ** [band_center] *)

Section BandCenter.

Variable env : Env.
Variable x : string -> Q.

Local Open Scope R_scope.

(** The electronegativity of the element is [x el], a positive number. *)
Definition has_X (item : string * Q) : Prop :=
  element_X env (fst item) = Ok (x (fst item)) /\ (0 < x (fst item))%Q.

Lemma Q2R_pos (q : Q) : (0 < q)%Q -> 0 < Q2R q.
Proof. intros H. rewrite <- RMicromega.Q2R_0. now apply Qlt_Rlt. Qed.

Lemma band_loop (comp : el_amt_dict) :
  Forall has_X comp ->
  forall prod : R,
    for_each (band_body env) comp prod = Ok (prod * spec_band_product x comp).
Proof.
  induction 1 as [|[el a] items [HX Hpos] _ IH]; intros prod.
  - simpl. f_equal. lra.
  - cbn [for_each]. unfold band_body at 1. cbn [fst snd] in *.
    rewrite (bind_ok _ HX), (py_pow_pos _ (Q2R_pos Hpos)). cbn [bind].
    rewrite IH. f_equal. cbn [spec_band_product fold_right fst snd].
    fold (spec_band_product x items). ring.
Qed.

Lemma spec_band_product_pos (comp : el_amt_dict) : 0 < spec_band_product x comp.
Proof.
  induction comp as [|item items IH]; simpl; [lra|].
  apply Rmult_lt_0_compat; [apply Rpower_pos | exact IH].
Qed.

Lemma n_atoms_R_pos (comp : el_amt_dict) :
  comp <> [] -> positive_amounts comp -> 0 < Q2R (qsum (values comp)).
Proof.
  intros Hne Hpos. apply Q2R_pos.
  change (qsum (values comp)) with (n_atoms comp).
  rewrite n_atoms_total. now apply spec_total_pos.
Qed.

Lemma band_center_run (comp : el_amt_dict) :
  comp <> [] -> positive_amounts comp -> Forall has_X comp ->
  band_center env comp
  = Ok (- Rpower (spec_band_product x comp) (1 / Q2R (qsum (values comp)))).
Proof.
  intros Hne Hpos HX. unfold band_center.
  rewrite (band_loop HX). cbn [bind]. rewrite Rmult_1_l.
  pose proof (n_atoms_R_pos Hne Hpos) as Hn.
  rewrite py_fdiv_ok by lra. cbn [bind].
  now rewrite (py_pow_pos _ (spec_band_product_pos comp)).
Qed.

(** X28: with positive electronegativities, [band_center] is minus the
    geometric mean of the electronegativities weighted by the amounts:
    the product of the [X ** amount] raised to one over the atom count.
    It is negative. *)
Theorem band_center_value (comp : el_amt_dict) :
  comp <> [] -> positive_amounts comp -> Forall has_X comp ->
  exists r, band_center env comp = Ok r
            /\ r = - Rpower (spec_band_product x comp) (1 / Q2R (n_atoms comp))
            /\ r < 0.
Proof.
  intros Hne Hpos HX.
  exists (- Rpower (spec_band_product x comp) (1 / Q2R (n_atoms comp))).
  split; [now apply band_center_run|]. split; [reflexivity|].
  pose proof (Rpower_pos (spec_band_product x comp) (1 / Q2R (n_atoms comp))). lra.
Qed.

End BandCenter.

Lemma band_center_value_witness :
  exists r,
    band_center Fixture.demo_env [("Fe"%string, 2%Q); ("O"%string, 3%Q)] = Ok r
    /\ r = (- Rpower (spec_band_product
                        (fun el => if String.eqb el "Fe" then 183 # 100 else 344 # 100)
                        [("Fe"%string, 2%Q); ("O"%string, 3%Q)])
                     (1 / Q2R (n_atoms [("Fe"%string, 2%Q); ("O"%string, 3%Q)])))%R
    /\ (r < 0)%R.
Proof.
  apply band_center_value.
  - discriminate.
  - repeat constructor.
  - constructor; [|constructor; [|constructor]]; split; reflexivity.
Defined.
